(** * The etcd/Kafka job worker of [kafka-network-automation.py]

    A shallow embedding of [AsyncNetworkDeviceLock] and [process_jobs].
    The program talks to three outside parties (the etcd key-value store, the
    etcd lock and the Kafka consumer), so it is embedded in a small monad
    that threads the state of those parties, records every call the program
    makes in a trace, and carries Python exceptions. *)

From stdpp Require Import base option list strings gmap pretty.
From Stdlib Require Import ZArith Lia.

Local Open Scope string_scope.
Local Open Scope Z_scope.
Local Open Scope list_scope.

(** ** Exceptions

    The only thing the program ever asks of an exception is whether it is an
    instance of [RuntimeError] (the [except RuntimeError] clause), so an
    exception is a class tag together with its message. [OtherError] stands
    for every class that is not a subclass of [RuntimeError]. *)

Inductive exn : Type :=
  | RuntimeError (msg : string)
  | OtherError (msg : string).

Definition is_RuntimeError (e : exn) : bool :=
  match e with
  | RuntimeError _ => true
  | OtherError _ => false
  end.

Inductive res (A : Type) : Type :=
  | Ret (a : A)
  | Raise (e : exn).
Arguments Ret {A} a.
Arguments Raise {A} e.

(** ** What an observer sees *)

Inductive level : Type := INFO | WARNING | ERROR.

(** One event per call that leaves the worker, recorded when the call is
    made, whether or not it then succeeds. *)
Inductive event : Type :=
  | Log (lvl : level) (text : string)
  | EtcdGet (key : string)
  | EtcdPut (key value : string)
  | LockAcquire (name : string)
  | LockRelease (name : string)
  | Work (device : string)
  | Commit (offset : Z)
  | Sleep (seconds : Z)
  | ConsumerStart
  | ConsumerStop.

Global Instance level_eq_dec : EqDecision level.
Proof. solve_decision. Defined.
Global Instance event_eq_dec : EqDecision event.
Proof. solve_decision. Defined.

Definition is_log (e : event) : bool :=
  match e with
  | Log _ _ => true
  | _ => false
  end.

(** The calls of a trace: everything but the log lines. *)
Definition calls (tr : list event) : list event :=
  List.filter (λ e, negb (is_log e)) tr.

(** ** The outside world

    The etcd store is kept in two parts. [etcd_kv] holds the data keys, the
    ones [get] and [put] see; the program only ever reads and writes status
    keys there. [locks_held] holds the lock names this worker has a lease on:
    the keys of the locks live in the same store under their own names, are
    only ever touched through [acquire] and [release], and are never status
    keys. [committed] is the list of positions committed to Kafka so far
    (latest last): one entry per [commit] that returned, namely the offset of
    the message being processed when the commit was made. A commit takes no
    argument, so it moves the cursor of the group past that message and with
    it past every message consumed before. *)
Record world : Type := World {
  etcd_kv : gmap string string;
  locks_held : gset string;
  committed : list Z
}.

(** What the outside parties answer during one loop iteration. A [Some e]
    makes the corresponding call raise [e]; [acquire_result] is what
    [lock.acquire] returns ([True], [False]) or raises. *)
Record oracle : Type := Oracle {
  get_fault : option exn;
  acquire_result : res bool;
  work_fault : option exn;
  put_fault : option exn;
  release_fault : option exn;
  commit_fault : option exn
}.

(** ** The monad: state of the world, trace of events, exceptions *)

Definition M (A : Type) : Type := world → res A * world * list event.

Global Instance M_ret : MRet M := λ A a w, (Ret a, w, []).

Global Instance M_bind : MBind M := λ A B f m w,
  match m w with
  | (Ret a, w1, t1) =>
      match f a w1 with
      | (r, w2, t2) => (r, w2, t1 ++ t2)
      end
  | (Raise e, w1, t1) => (Raise e, w1, t1)
  end.

Definition raise {A : Type} (e : exn) : M A := λ w, (Raise e, w, []).

Definition emit (ev : event) : M unit := λ w, (Ret (), w, [ev]).

(** [try: body  except RuntimeError: handler] *)
Definition try_except_RuntimeError {A : Type} (body handler : M A) : M A := λ w,
  match body w with
  | (Ret a, w1, t1) => (Ret a, w1, t1)
  | (Raise e, w1, t1) =>
      if is_RuntimeError e then
        match handler w1 with
        | (r, w2, t2) => (r, w2, t1 ++ t2)
        end
      else (Raise e, w1, t1)
  end.

(** [try: body  finally: cleanup]; also the meaning of leaving a [with] block
    whose exit method returns [None]: the cleanup runs on both ways out, the
    pending exception is re-raised after it, and an exception of the cleanup
    replaces it. *)
Definition try_finally {A B : Type} (body : M A) (cleanup : M B) : M A := λ w,
  match body w with
  | (r, w1, t1) =>
      match cleanup w1 with
      | (Ret _, w2, t2) => (r, w2, t1 ++ t2)
      | (Raise e, w2, t2) => (Raise e, w2, t1 ++ t2)
      end
  end.

(** Projections of a run. *)
Definition outcome {A : Type} (x : res A * world * list event) : res A := x.1.1.
Definition final {A : Type} (x : res A * world * list event) : world := x.1.2.
Definition trace {A : Type} (x : res A * world * list event) : list event := x.2.

(** ** The outside calls *)

Definition logger (lvl : level) (text : string) : M unit := emit (Log lvl text).

(** [etcd_client.get(key)]: a pair (value, metadata), both [None] for a key
    that is not there. The metadata is modelled by the key it belongs to. *)
Definition etcd_get (o : oracle) (key : string) : M (option string * option string) := λ w,
  match get_fault o with
  | Some e => (Raise e, w, [EtcdGet key])
  | None =>
      match etcd_kv w !! key with
      | Some v => (Ret (Some v, Some key), w, [EtcdGet key])
      | None => (Ret (None, None), w, [EtcdGet key])
      end
  end.

(** [etcd_client.put(key, value)] *)
Definition etcd_put (o : oracle) (key value : string) : M unit := λ w,
  match put_fault o with
  | Some e => (Raise e, w, [EtcdPut key value])
  | None =>
      (Ret (),
       World (<[key:=value]> (etcd_kv w)) (locks_held w) (committed w),
       [EtcdPut key value])
  end.

(** [lock.acquire()]; the key of the lock is kept in [locks_held], apart from
    the data keys. *)
Definition lock_acquire (o : oracle) (name : string) : M bool := λ w,
  match acquire_result o with
  | Raise e => (Raise e, w, [LockAcquire name])
  | Ret true =>
      (Ret true,
       World (etcd_kv w) ({[name]} ∪ locks_held w) (committed w),
       [LockAcquire name])
  | Ret false => (Ret false, w, [LockAcquire name])
  end.

(** [lock.release()]; the program ignores what it returns. A release that
    raises leaves the lease where it is. *)
Definition lock_release (o : oracle) (name : string) : M unit := λ w,
  match release_fault o with
  | Some e => (Raise e, w, [LockRelease name])
  | None =>
      (Ret (),
       World (etcd_kv w) (locks_held w ∖ {[name]}) (committed w),
       [LockRelease name])
  end.

(** [consumer.commit()], made while the message at [offset] is the last one
    consumed: it commits the position of the consumer, that is the cursor
    just past [offset]. *)
Definition consumer_commit (o : oracle) (offset : Z) : M unit := λ w,
  match commit_fault o with
  | Some e => (Raise e, w, [Commit offset])
  | None =>
      (Ret (),
       World (etcd_kv w) (locks_held w) (committed w ++ [offset]),
       [Commit offset])
  end.

(** [asyncio.sleep(seconds)] *)
Definition asyncio_sleep (seconds : Z) : M unit := emit (Sleep seconds).

(** The protected work. The source has [await asyncio.sleep(2)] in the place
    where the device is to be configured; the model lets that step succeed or
    raise, as the oracle says. *)
Definition work (o : oracle) (device : string) : M unit := λ w,
  match work_fault o with
  | Some e => (Raise e, w, [Work device])
  | None => (Ret (), w, [Work device])
  end.

(** ** class AsyncNetworkDeviceLock *)

Module AsyncNetworkDeviceLock.

Record t : Type := Make {
  lock_name : string;
  ttl : Z;
  is_locked : bool
}.

(** [__init__(self, etcd_client, device_name, ttl=60)] *)
Definition __init__ (device_name : string) (ttl : Z) : t :=
  {| lock_name := "/locks/device/" +:+ device_name;
     ttl := ttl;
     is_locked := false |}.

(** [__aenter__(self)] *)
Definition __aenter__ (o : oracle) (self : t) : M t :=
  logger INFO
    ("AsyncNetworkDeviceLock|attempting to acquire lock for "
       +:+ lock_name self +:+ "...") ;;
  acquired ← lock_acquire o (lock_name self) ;
  if negb acquired then
    raise (RuntimeError
      ("AsyncNetworkDeviceLock|could not acquire lock for " +:+ lock_name self))
  else
    mret {| lock_name := lock_name self; ttl := ttl self; is_locked := true |}.

(** [__aexit__(self, exc_type, exc, tb)]; it returns [None], so it never
    swallows the exception it is told about. *)
Definition __aexit__ (o : oracle) (self : t) : M t :=
  if is_locked self then
    lock_release o (lock_name self) ;;
    logger INFO
      ("AsyncNetworkDeviceLock|lock released for " +:+ lock_name self) ;;
    mret {| lock_name := lock_name self; ttl := ttl self; is_locked := false |}
  else mret self.

End AsyncNetworkDeviceLock.

(** [async with mgr as lock: body]. An exception of [__aenter__] leaves the
    statement without [__aexit__] being called. *)
Definition async_with {A : Type} (o : oracle) (mgr : AsyncNetworkDeviceLock.t)
    (body : AsyncNetworkDeviceLock.t → M A) : M A :=
  lock ← AsyncNetworkDeviceLock.__aenter__ o mgr ;
  try_finally (body lock) (AsyncNetworkDeviceLock.__aexit__ o lock).

(** ** process_jobs *)

Record payload : Type := Payload {
  job_id : string;
  device : string
}.

(** A consumed record. [msg_value] is [None] for a value that [json.loads]
    or one of the two subscripts rejects. The class of the exception plays no
    part: the three lines are outside the inner [try], so whatever they raise
    leaves the loop. *)
Record message : Type := Message {
  msg_offset : Z;
  msg_value : option payload
}.

Definition json_loads (value : option payload) : M payload :=
  match value with
  | Some p => mret p
  | None => raise (OtherError "payload")
  end.

(** Python truth value of [current_value]: [None] and [b""] are false. *)
Definition truthy (v : option string) : bool :=
  match v with
  | None => false
  | Some "" => false
  | Some _ => true
  end.

Definition job_status_key_of (job_id : string) : string :=
  "/jobs/" +:+ job_id +:+ "/status".

Definition check_status (o : oracle) (job_status_key : string)
  : M (option string * option string) :=
  etcd_get o job_status_key.

Definition mark_complete (o : oracle) (job_status_key : string) : M unit :=
  etcd_put o job_status_key "COMPLETED".

(** The body of [async for msg in consumer]. [Ret ()] means the loop goes on
    to the next message ([continue] or the end of the body); [Raise e] means
    [e] leaves the loop. *)
Definition loop_body (o : oracle) (msg : message) : M unit :=
  p ← json_loads (msg_value msg) ;
  let job_id := job_id p in
  let device := device p in
  let job_status_key := job_status_key_of job_id in
  logger INFO ("process_jobs|Received Job " +:+ job_id +:+ " for " +:+ device) ;;
  '(current_value, _) ← check_status o job_status_key ;
  if truthy current_value && bool_decide (current_value = Some "COMPLETED") then
    logger WARNING
      ("process_jobs|Job " +:+ job_id +:+ " already marked COMPLETED. Skipping.") ;;
    consumer_commit o (msg_offset msg)
  else
    try_except_RuntimeError
      (async_with o (AsyncNetworkDeviceLock.__init__ device 60) (λ lock,
         logger INFO ("process_jobs|Configuring " +:+ device +:+ "...") ;;
         work o device ;;
         mark_complete o job_status_key ;;
         logger INFO ("process_jobs|Job " +:+ job_id +:+ " finished.")) ;;
       consumer_commit o (msg_offset msg) ;;
       logger INFO
         ("process_jobs|msg " +:+ pretty (msg_offset msg) +:+ " committed."))
      (logger ERROR
         ("process_jobs|Device " +:+ device +:+ " is locked. Retrying later.") ;;
       asyncio_sleep 5).

(** The messages the consumer yields, each with what the outside answers
    while it is being processed. *)
Fixpoint consume (deliveries : list (oracle * message)) : M unit :=
  match deliveries with
  | [] => mret ()
  | (o, msg) :: rest => loop_body o msg ;; consume rest
  end.

(** [process_jobs] when [consumer.start()] and [consumer.stop()] return and
    the stream ends after [deliveries]. *)
Definition process_jobs (deliveries : list (oracle * message)) : M unit :=
  emit ConsumerStart ;;
  try_finally (consume deliveries) (emit ConsumerStop).

(** [process_jobs] with a consumer that can fail: what [consumer.start()]
    (before the [try]), the fetch of the [async for] once [deliveries] are
    used up, and [consumer.stop()] (in the [finally] clause) answer. *)
Record session : Type := Session {
  start_fault : option exn;
  fetch_fault : option exn;
  stop_fault : option exn
}.

Definition consumer_start (s : session) : M unit := λ w,
  match start_fault s with
  | Some e => (Raise e, w, [ConsumerStart])
  | None => (Ret (), w, [ConsumerStart])
  end.

Definition consumer_stop (s : session) : M unit := λ w,
  match stop_fault s with
  | Some e => (Raise e, w, [ConsumerStop])
  | None => (Ret (), w, [ConsumerStop])
  end.

Definition consumer_fetch_end (s : session) : M unit :=
  match fetch_fault s with
  | Some e => raise e
  | None => mret ()
  end.

Definition process_jobs_session (s : session) (deliveries : list (oracle * message))
  : M unit :=
  consumer_start s ;;
  try_finally (consume deliveries ;; consumer_fetch_end s) (consumer_stop s).

(** The lock name [__init__] derives for a device, and the run of the loop
    body on a well-formed message, as the statements below name them. *)
Definition device_lock (device : string) : string :=
  AsyncNetworkDeviceLock.lock_name (AsyncNetworkDeviceLock.__init__ device 60).

Definition run_job (o : oracle) (offset : Z) (p : payload) : M unit :=
  loop_body o (Message offset (Some p)).

(** [precedes a b tr]: somewhere in [tr], [a] happens and later [b] does. *)
Definition precedes (a b : event) (tr : list event) : Prop :=
  ∃ pre mid post, tr = pre ++ a :: mid ++ b :: post.

(** ** Sample runs *)

Definition all_fine : oracle :=
  Oracle None (Ret true) None None None None.

Definition w0 : world := World ∅ ∅ [].

Definition job42 : message := Message 7 (Some (Payload "42" "r1")).

(** The world after job 42 has been completed, and a world in which its
    status key holds something else. *)
Definition w_done : world :=
  World {[ "/jobs/42/status" := "COMPLETED" ]} ∅ [].

Definition w_pending : world :=
  World {[ "/jobs/42/status" := "PENDING" ]} ∅ [].

(** Oracles with one thing going wrong: the lock is held elsewhere, the work
    raises, etcd is down for the read, the write of the marker raises. *)
Definition lock_busy : oracle :=
  Oracle None (Ret false) None None None None.

Definition work_raises (e : exn) : oracle :=
  Oracle None (Ret true) (Some e) None None None.

Definition etcd_down : oracle :=
  Oracle (Some (OtherError "etcd unavailable")) (Ret true) None None None None.

Definition put_raises (e : exn) : oracle :=
  Oracle None (Ret true) None (Some e) None None.

(** The commit, the acquisition or the release raises. *)
Definition commit_raises (e : exn) : oracle :=
  Oracle None (Ret true) None None None (Some e).

Definition acquire_raises (e : exn) : oracle :=
  Oracle None (Raise e) None None None None.

Definition release_raises (e : exn) : oracle :=
  Oracle None (Ret true) None None (Some e) None.

(** * Reasoning about runs *)

(** The scenario of the specification: job 42 for device r1, nothing stored,
    lock free. *)
Example run_job42 :
  loop_body all_fine job42 w0
  = (Ret (),
     World {[ "/jobs/42/status" := "COMPLETED" ]} ∅ [7],
     [ Log INFO "process_jobs|Received Job 42 for r1";
       EtcdGet "/jobs/42/status";
       Log INFO "AsyncNetworkDeviceLock|attempting to acquire lock for /locks/device/r1...";
       LockAcquire "/locks/device/r1";
       Log INFO "process_jobs|Configuring r1...";
       Work "r1";
       EtcdPut "/jobs/42/status" "COMPLETED";
       Log INFO "process_jobs|Job 42 finished.";
       LockRelease "/locks/device/r1";
       Log INFO "AsyncNetworkDeviceLock|lock released for /locks/device/r1";
       Commit 7;
       Log INFO "process_jobs|msg 7 committed." ]).
Proof. vm_compute. reflexivity. Qed.

(** Job 42 delivered twice, as after a crash between the write of the marker
    and the commit: the second delivery is acknowledged without lock or
    work. *)
Example run_redelivery :
  let r := process_jobs
             [(all_fine, job42); (all_fine, Message 8 (Some (Payload "42" "r1")))] w0 in
  outcome r = Ret ()
  ∧ calls (trace r)
    = [ConsumerStart;
       EtcdGet "/jobs/42/status"; LockAcquire "/locks/device/r1"; Work "r1";
       EtcdPut "/jobs/42/status" "COMPLETED"; LockRelease "/locks/device/r1";
       Commit 7;
       EtcdGet "/jobs/42/status"; Commit 8;
       ConsumerStop]
  ∧ committed (final r) = [7; 8].
Proof. vm_compute. repeat split. Qed.

(** Job 43 while another worker holds the lease on r1: deferred, nothing
    acknowledged, nothing written. *)
Example run_lock_busy :
  let r := run_job lock_busy 9 (Payload "43" "r1") w0 in
  outcome r = Ret ()
  ∧ final r = w0
  ∧ calls (trace r)
    = [EtcdGet "/jobs/43/status"; LockAcquire "/locks/device/r1"; Sleep 5].
Proof. vm_compute. repeat split. Qed.

(** ** Lists of events *)

Lemma precedes_here (a b : event) (l : list event) :
  b ∈ l → precedes a b (a :: l).
Proof.
  intros Hb. apply list_elem_of_split in Hb as (mid & post & ->).
  exists [], mid, post. reflexivity.
Qed.

Lemma precedes_further (a b x : event) (l : list event) :
  precedes a b l → precedes a b (x :: l).
Proof.
  intros (pre & mid & post & ->). exists (x :: pre), mid, post. reflexivity.
Qed.

Lemma precedes_nil (a b : event) : ¬ precedes a b [].
Proof. intros (pre & mid & post & H). destruct pre; discriminate H. Qed.

Lemma precedes_cons_inv (a b x : event) (l : list event) :
  precedes a b (x :: l) → (x = a ∧ b ∈ l) ∨ precedes a b l.
Proof.
  intros (pre & mid & post & H). destruct pre as [|y pre]; simpl in H.
  - injection H as -> ->. left. split; [reflexivity|].
    apply elem_of_app. right. apply list_elem_of_here.
  - injection H as -> ->. right. exists pre, mid, post. reflexivity.
Qed.

Lemma calls_app (t1 t2 : list event) : calls (t1 ++ t2) = calls t1 ++ calls t2.
Proof. apply List.filter_app. Qed.

(** The dedup test of [loop_body] is the comparison alone: a value equal to
    [b"COMPLETED"] is not empty. *)
Lemma dedup_test (v : option string) :
  truthy v && bool_decide (v = Some "COMPLETED")
  = bool_decide (v = Some "COMPLETED").
Proof.
  case_bool_decide as Hv; [subst v; reflexivity | apply andb_false_r].
Qed.

(** A [Ret ()] of the loop body hands over to the next message. *)
Lemma consume_next (o : oracle) (msg : message) (rest : list (oracle * message))
    (w : world) :
  outcome (loop_body o msg w) = Ret () →
  consume ((o, msg) :: rest) w
  = (outcome (consume rest (final (loop_body o msg w))),
     final (consume rest (final (loop_body o msg w))),
     trace (loop_body o msg w) ++ trace (consume rest (final (loop_body o msg w)))).
Proof.
  simpl. unfold mbind, M_bind.
  destruct (loop_body o msg w) as [[r1 w1] t1]. unfold outcome, final, trace.
  simpl. intros ->. destruct (consume rest w1) as [[r2 w2] t2]. reflexivity.
Qed.

(** An exception of the loop body ends the loop. *)
Lemma consume_raise (o : oracle) (msg : message) (rest : list (oracle * message))
    (w : world) (e : exn) :
  outcome (loop_body o msg w) = Raise e →
  consume ((o, msg) :: rest) w = loop_body o msg w.
Proof.
  simpl. unfold mbind, M_bind.
  destruct (loop_body o msg w) as [[r1 w1] t1]. unfold outcome. simpl.
  intros ->. reflexivity.
Qed.

(** ** Running the loop body by cases on what the outside answers *)

Ltac unfold_run :=
  unfold run_job, device_lock, loop_body, check_status, mark_complete, async_with,
    AsyncNetworkDeviceLock.__aenter__, AsyncNetworkDeviceLock.__aexit__,
    AsyncNetworkDeviceLock.__init__,
    try_except_RuntimeError, try_finally, etcd_get, etcd_put, lock_acquire,
    lock_release, consumer_commit, work, logger, asyncio_sleep, emit, raise,
    json_loads, mbind, M_bind, mret, M_ret.

Ltac run_step :=
  match goal with
  | |- context [truthy ?v && bool_decide (?v = Some "COMPLETED")] =>
      rewrite (dedup_test v); case_bool_decide
  | |- context [etcd_kv ?w !! ?k] =>
      lazymatch goal with
      | |- context [match etcd_kv w !! k with _ => _ end] =>
          let E := fresh "Hkv" in destruct (etcd_kv w !! k) eqn:E
      end
  | |- context [is_RuntimeError ?e] => is_var e; destruct e
  | |- context [match ?x with _ => _ end] =>
      is_var x;
      lazymatch type of x with
      | option exn => destruct x
      | res bool => destruct x
      | bool => destruct x
      end
  end.

Ltac run o :=
  destruct o as [g a wk pt rl cm]; unfold_run; cbn -[truthy];
  repeat (run_step; cbn -[truthy]).

(** Membership in, and order within, a trace that is written out. *)
Ltac elem_false H :=
  repeat (apply elem_of_cons in H as [H|H]; [discriminate H|]);
  apply elem_of_nil in H; destruct H.

Ltac elem_cases H :=
  repeat (apply elem_of_cons in H as [H|H]; [try discriminate H|]);
  try (apply elem_of_nil in H; destruct H).

Ltac elem_true :=
  repeat first [apply list_elem_of_here | apply list_elem_of_further].

Ltac not_elem :=
  let H := fresh in intros H; elem_false H.

Ltac precedes_true :=
  repeat first [apply precedes_here; solve [elem_true] | apply precedes_further].

Ltac precedes_false H :=
  repeat (let Hx := fresh in let Hin := fresh in
          apply precedes_cons_inv in H as [[Hx Hin]|H];
          [try discriminate Hx; try solve [elem_false Hin]|]);
  try (apply precedes_nil in H; destruct H).

(** * The claims *)

(** C1. When the protected work of a job has completed and the message is
    acknowledged, the write of [COMPLETED] under [/jobs/<job_id>/status]
    comes before the commit in the trace and has taken effect; in no run
    does a commit come before a write of the marker. With the write and the
    release going through, the commit does follow. *)
Theorem marker_written_before_ack (o : oracle) (off : Z) (p : payload) (w : world) :
  let r := run_job o off p w in
  let key := job_status_key_of (job_id p) in
  Work (device p) ∈ trace r → work_fault o = None →
  (Commit off ∈ trace r →
     precedes (EtcdPut key "COMPLETED") (Commit off) (trace r)
     ∧ etcd_kv (final r) !! key = Some "COMPLETED")
  ∧ (∀ off' k v, ¬ precedes (Commit off') (EtcdPut k v) (trace r))
  ∧ (put_fault o = None → release_fault o = None → Commit off ∈ trace r).
Proof.
  run o; intros HW Hwk; try discriminate Hwk; try solve [elem_false HW].
  all: split;
    [intros HC;
     first [solve [elem_false HC]
           | split; [precedes_true | apply lookup_insert_eq]]|].
  all: split; [intros off' k v HP; precedes_false HP|].
  all: intros Hpt Hrl; try discriminate Hpt; try discriminate Hrl; elem_true.
Qed.

Lemma marker_written_before_ack_witness :
  let r := run_job all_fine 7 (Payload "42" "r1") w0 in
  let key := job_status_key_of "42" in
  (Commit 7 ∈ trace r →
     precedes (EtcdPut key "COMPLETED") (Commit 7) (trace r)
     ∧ etcd_kv (final r) !! key = Some "COMPLETED")
  ∧ (∀ off' k v, ¬ precedes (Commit off') (EtcdPut k v) (trace r))
  ∧ (put_fault all_fine = None → release_fault all_fine = None →
     Commit 7 ∈ trace r).
Proof.
  apply (marker_written_before_ack all_fine 7 (Payload "42" "r1") w0).
  - vm_compute. elem_true.
  - reflexivity.
Defined.

(** C2. A job whose status key already holds [COMPLETED] when the dedup check
    runs: the work is not invoked and no lock acquisition is attempted; once
    the check has read the entry the commit is the very next call, and when
    it returns the loop goes on to the next message. *)
Theorem completed_job_is_skipped (o : oracle) (off : Z) (p : payload) (w : world) :
  let r := run_job o off p w in
  let key := job_status_key_of (job_id p) in
  etcd_kv w !! key = Some "COMPLETED" →
  (∀ d, Work d ∉ trace r)
  ∧ (∀ n, LockAcquire n ∉ trace r)
  ∧ etcd_kv (final r) = etcd_kv w
  ∧ (get_fault o = None →
       calls (trace r) = [EtcdGet key; Commit off]
       ∧ (commit_fault o = None →
            outcome r = Ret ()
            ∧ committed (final r) = committed w ++ [off]
            ∧ ∀ rest,
                trace (consume ((o, Message off (Some p)) :: rest) w)
                = trace r ++ trace (consume rest (final r)))).
Proof.
  intros r key Hkv.
  assert (Hout : get_fault o = None → commit_fault o = None → outcome r = Ret ()).
  { revert Hkv. subst r key. run o; intros Hkv' Hg Hc;
      solve [discriminate | congruence | reflexivity]. }
  revert Hkv Hout. subst r key. intros Hkv Hout.
  split_and!.
  - revert Hkv. clear Hout. run o; intros Hkv' d; solve [congruence | not_elem].
  - revert Hkv. clear Hout. run o; intros Hkv' n; solve [congruence | not_elem].
  - revert Hkv. clear Hout. run o; intros Hkv'; solve [congruence | reflexivity].
  - intros Hg. split.
    + revert Hkv Hg. clear Hout. run o; intros Hkv' Hg;
        solve [discriminate | congruence | reflexivity].
    + intros Hc. split_and!.
      * exact (Hout Hg Hc).
      * revert Hkv Hg Hc. clear Hout. run o; intros Hkv' Hg Hc;
          solve [discriminate | congruence | reflexivity].
      * intros rest. unfold run_job in *.
        rewrite (consume_next _ _ _ _ (Hout Hg Hc)). reflexivity.
Qed.

Lemma completed_job_is_skipped_witness :
  let r := run_job all_fine 8 (Payload "42" "r1") w_done in
  let key := job_status_key_of "42" in
  etcd_kv w_done !! key = Some "COMPLETED"
  ∧ (∀ d, Work d ∉ trace r)
  ∧ calls (trace r) = [EtcdGet key; Commit 8]
  ∧ outcome r = Ret ()
  ∧ committed (final r) = [8].
Proof.
  assert (Hkv : etcd_kv w_done !! job_status_key_of "42" = Some "COMPLETED")
    by (vm_compute; reflexivity).
  destruct (completed_job_is_skipped all_fine 8 (Payload "42" "r1") w_done Hkv)
    as (HW & _ & _ & Hskip).
  destruct (Hskip eq_refl) as (Hcalls & Hnext).
  destruct (Hnext eq_refl) as (Hout & Hcom & _).
  cbv zeta. split_and!; [exact Hkv | exact HW | exact Hcalls | exact Hout | exact Hcom].
Defined.

(** C3, as the program has it. On the success path the calls are, in this
    order: the dedup read, the lock acquisition, the work, the write of the
    marker, the release of the lock, and only then the commit. *)
Theorem success_path_finalization_order (o : oracle) (off : Z) (p : payload)
    (w : world) :
  let r := run_job o off p w in
  let key := job_status_key_of (job_id p) in
  let name := device_lock (device p) in
  get_fault o = None →
  etcd_kv w !! key ≠ Some "COMPLETED" →
  acquire_result o = Ret true →
  work_fault o = None → put_fault o = None → release_fault o = None →
  precedes (EtcdPut key "COMPLETED") (LockRelease name) (trace r)
  ∧ precedes (LockRelease name) (Commit off) (trace r)
  ∧ ¬ precedes (Commit off) (LockRelease name) (trace r)
  ∧ (commit_fault o = None →
       outcome r = Ret ()
       ∧ calls (trace r)
         = [EtcdGet key; LockAcquire name; Work (device p);
            EtcdPut key "COMPLETED"; LockRelease name; Commit off]).
Proof.
  run o; intros Hg Hkv' Ha Hw Hp Hr;
    try discriminate; try congruence.
  all: split_and!;
    [precedes_true | precedes_true | intros HP; precedes_false HP
    | intros Hc; try discriminate Hc; split; reflexivity].
Qed.

Lemma success_path_finalization_order_witness :
  let r := run_job all_fine 7 (Payload "42" "r1") w0 in
  calls (trace r)
  = [EtcdGet "/jobs/42/status"; LockAcquire "/locks/device/r1"; Work "r1";
     EtcdPut "/jobs/42/status" "COMPLETED"; LockRelease "/locks/device/r1";
     Commit 7].
Proof.
  assert (Hkv : etcd_kv w0 !! job_status_key_of "42" ≠ Some "COMPLETED")
    by (vm_compute; discriminate).
  destruct (success_path_finalization_order all_fine 7 (Payload "42" "r1") w0
              eq_refl Hkv eq_refl eq_refl eq_refl eq_refl) as (_ & _ & _ & Hc).
  exact (proj2 (Hc eq_refl)).
Defined.

(** The order C3 states (marker, commit, release) is not the order of the
    program: in the run of job 42 with nothing failing, no release of the
    lock follows the commit. *)
Lemma finalization_order_counterexample :
  let r := run_job all_fine 7 (Payload "42" "r1") w0 in
  outcome r = Ret ()
  ∧ Commit 7 ∈ trace r
  ∧ precedes (LockRelease "/locks/device/r1") (Commit 7) (trace r)
  ∧ ¬ precedes (Commit 7) (LockRelease "/locks/device/r1") (trace r).
Proof.
  cbv zeta. unfold run_job. change (Message 7 (Some (Payload "42" "r1"))) with job42.
  rewrite run_job42. unfold outcome, trace. simpl.
  split_and!; [reflexivity | elem_true | precedes_true |].
  intros HP. precedes_false HP.
Qed.

(** C4. A job whose lock acquisition is attempted and does not succeed: no
    commit, no write of the marker, no work, the world is left as it was;
    and when [acquire] answers [False] the error is logged, the only call
    after the acquisition is the pause of 5 seconds, and the loop goes on to
    the next message. *)
Theorem lock_denied_defers (o : oracle) (off : Z) (p : payload) (w : world) :
  let r := run_job o off p w in
  let key := job_status_key_of (job_id p) in
  let name := device_lock (device p) in
  LockAcquire name ∈ trace r → acquire_result o ≠ Ret true →
  (∀ off', Commit off' ∉ trace r)
  ∧ (∀ k v, EtcdPut k v ∉ trace r)
  ∧ (∀ d, Work d ∉ trace r)
  ∧ final r = w
  ∧ (acquire_result o = Ret false →
       outcome r = Ret ()
       ∧ calls (trace r) = [EtcdGet key; LockAcquire name; Sleep 5]
       ∧ Log ERROR
           ("process_jobs|Device " +:+ device p +:+ " is locked. Retrying later.")
         ∈ trace r
       ∧ ∀ rest,
           trace (consume ((o, Message off (Some p)) :: rest) w)
           = trace r ++ trace (consume rest w)).
Proof.
  intros r key name HL Ha.
  assert (Hmain :
    (∀ off', Commit off' ∉ trace r)
    ∧ (∀ k v, EtcdPut k v ∉ trace r)
    ∧ (∀ d, Work d ∉ trace r)
    ∧ final r = w
    ∧ (acquire_result o = Ret false →
         outcome r = Ret ()
         ∧ calls (trace r) = [EtcdGet key; LockAcquire name; Sleep 5]
         ∧ Log ERROR
             ("process_jobs|Device " +:+ device p +:+ " is locked. Retrying later.")
           ∈ trace r)).
  { revert HL Ha. subst r key name.
    run o; intros HL Ha; try solve [elem_false HL]; try congruence.
    all: split_and!;
      [intros off'; not_elem | intros k v; not_elem | intros d; not_elem
      | reflexivity | intros Hf; try discriminate Hf].
    all: split_and!; [reflexivity | reflexivity | elem_true]. }
  destruct Hmain as (Hnc & Hnp & Hnw & Hfin & Hden).
  split_and!; try assumption.
  intros Hf. destruct (Hden Hf) as (Hout & Hcalls & Hlog).
  split_and!; try assumption.
  intros rest. subst r. unfold run_job in *.
  rewrite (consume_next _ _ _ _ Hout), Hfin. reflexivity.
Qed.

Lemma lock_denied_defers_witness :
  let r := run_job lock_busy 9 (Payload "43" "r1") w0 in
  (∀ off', Commit off' ∉ trace r)
  ∧ (∀ k v, EtcdPut k v ∉ trace r)
  ∧ (∀ d, Work d ∉ trace r)
  ∧ final r = w0
  ∧ (acquire_result lock_busy = Ret false →
       outcome r = Ret ()
       ∧ calls (trace r)
         = [EtcdGet (job_status_key_of "43"); LockAcquire (device_lock "r1"); Sleep 5]
       ∧ Log ERROR ("process_jobs|Device " +:+ "r1" +:+ " is locked. Retrying later.")
         ∈ trace r
       ∧ ∀ rest,
           trace (consume ((lock_busy, Message 9 (Some (Payload "43" "r1"))) :: rest) w0)
           = trace r ++ trace (consume rest w0)).
Proof.
  apply (lock_denied_defers lock_busy 9 (Payload "43" "r1") w0).
  - vm_compute. elem_true.
  - discriminate.
Defined.

(** C5. Once [__aenter__] has taken the lock ([is_locked] is [True]), leaving
    the [async with] block calls [release], whatever the block did: the trace
    of the statement is the acquisition, then the trace of the block, then
    the release call. When the release returns the lease is gone and the
    outcome of the block is passed on unchanged; when it raises, that
    exception leaves the statement. In the loop body every acquisition that
    succeeded is followed by the release call, the work comes before it. *)
Theorem release_attempted_on_every_exit {A : Type} (o : oracle) (d : string)
    (body : AsyncNetworkDeviceLock.t → M A) (w : world) :
  acquire_result o = Ret true →
  let name := device_lock d in
  let locked := AsyncNetworkDeviceLock.Make name 60 true in
  let w1 := World (etcd_kv w) ({[name]} ∪ locks_held w) (committed w) in
  let r := async_with o (AsyncNetworkDeviceLock.__init__ d 60) body w in
  (∃ after,
     trace r
     = [Log INFO ("AsyncNetworkDeviceLock|attempting to acquire lock for "
                    +:+ name +:+ "...");
        LockAcquire name]
       ++ (trace (body locked w1) ++ (LockRelease name :: after)))
  ∧ (release_fault o = None →
       (name ∉ locks_held (final r)) ∧ outcome r = outcome (body locked w1))
  ∧ (∀ e, release_fault o = Some e → outcome r = Raise e)
  ∧ (∀ off p w',
       LockAcquire (device_lock (device p)) ∈ trace (run_job o off p w') →
       precedes (LockAcquire (device_lock (device p)))
                (LockRelease (device_lock (device p))) (trace (run_job o off p w'))
       ∧ precedes (Work (device p))
                  (LockRelease (device_lock (device p))) (trace (run_job o off p w'))).
Proof.
  intros Ha name locked w1 r. subst r w1 locked name.
  assert (Hwith :
    ∀ w, async_with o (AsyncNetworkDeviceLock.__init__ d 60) body w
    = let b := body (AsyncNetworkDeviceLock.Make (device_lock d) 60 true)
                 (World (etcd_kv w) ({[device_lock d]} ∪ locks_held w) (committed w)) in
      let pre := [Log INFO ("AsyncNetworkDeviceLock|attempting to acquire lock for "
                              +:+ device_lock d +:+ "...");
                  LockAcquire (device_lock d)] in
      match release_fault o with
      | Some e =>
          (Raise e, final b, pre ++ (trace b ++ [LockRelease (device_lock d)]))
      | None =>
          (outcome b,
           World (etcd_kv (final b)) (locks_held (final b) ∖ {[device_lock d]})
             (committed (final b)),
           pre ++ (trace b
             ++ [LockRelease (device_lock d);
                 Log INFO ("AsyncNetworkDeviceLock|lock released for "
                             +:+ device_lock d)]))
      end).
  { intros w2. destruct o as [g a wk pt rl cm]. simpl in Ha. subst a.
    unfold device_lock, async_with, AsyncNetworkDeviceLock.__aenter__,
      AsyncNetworkDeviceLock.__aexit__, AsyncNetworkDeviceLock.__init__, try_finally,
      lock_acquire, lock_release, logger, emit, mbind, M_bind, mret, M_ret.
    cbn.
    match goal with |- context [body ?l ?w'] => destruct (body l w') as [[rb wb] tb] end.
    destruct rl; cbn; rewrite <- ?app_assoc; reflexivity. }
  split_and!.
  - rewrite Hwith. cbv zeta. destruct (release_fault o); eexists; reflexivity.
  - intros Hr. rewrite Hwith. cbv zeta. rewrite Hr. split; [|reflexivity].
    unfold final at 1. simpl.
    rewrite not_elem_of_difference. right. apply elem_of_singleton. reflexivity.
  - intros e Hr. rewrite Hwith. cbv zeta. rewrite Hr. reflexivity.
  - clear Hwith. intros off p w'. revert Ha.
    run o; intros Ha HL; try discriminate Ha; try solve [elem_false HL].
    all: split; precedes_true.
Qed.

Lemma release_attempted_on_every_exit_witness :
  let body : AsyncNetworkDeviceLock.t → M unit :=
    λ _, raise (OtherError "connection reset") in
  let r := async_with all_fine (AsyncNetworkDeviceLock.__init__ "r1" 60) body w0 in
  acquire_result all_fine = Ret true
  ∧ LockRelease "/locks/device/r1" ∈ trace r
  ∧ (device_lock "r1" ∉ locks_held (final r))
  ∧ outcome r = Raise (OtherError "connection reset").
Proof.
  destruct (release_attempted_on_every_exit all_fine "r1"
              (λ _, raise (OtherError "connection reset") : M unit) w0 eq_refl)
    as ((after & Htr) & Hrel & _ & _).
  destruct (Hrel eq_refl) as (Hheld & Hout).
  cbv zeta. split_and!; [reflexivity | | exact Hheld | exact Hout].
  rewrite Htr. apply elem_of_app. right. apply elem_of_app. right.
  apply list_elem_of_here.
Defined.

(** What holds whenever the protected work raises, whatever it raises: no
    write of the marker, no commit, and the release call follows the work.
    When the release returns the lease is dropped and the exception of the
    work leaves the loop body unless it is a [RuntimeError]. *)
Theorem work_failure_handling (o : oracle) (off : Z) (p : payload) (w : world)
    (e : exn) :
  let r := run_job o off p w in
  let name := device_lock (device p) in
  Work (device p) ∈ trace r → work_fault o = Some e →
  (∀ k v, EtcdPut k v ∉ trace r)
  ∧ etcd_kv (final r) = etcd_kv w
  ∧ (∀ off', Commit off' ∉ trace r)
  ∧ committed (final r) = committed w
  ∧ precedes (Work (device p)) (LockRelease name) (trace r)
  ∧ (release_fault o = None →
       (name ∉ locks_held (final r))
       ∧ outcome r = if is_RuntimeError e then Ret () else Raise e).
Proof.
  run o; intros HW Hw; try discriminate Hw; try solve [elem_false HW].
  all: simplify_eq.
  all: split_and!;
    [intros k v; not_elem | reflexivity | intros off'; not_elem | reflexivity
    | precedes_true | intros Hr; try discriminate Hr].
  all: split; [|reflexivity].
  all: rewrite not_elem_of_difference; right; apply elem_of_singleton; reflexivity.
Qed.

Lemma work_failure_handling_witness :
  let e := OtherError "ssh timeout" in
  let r := run_job (work_raises e) 7 (Payload "42" "r1") w0 in
  (∀ k v, EtcdPut k v ∉ trace r)
  ∧ etcd_kv (final r) = etcd_kv w0
  ∧ (∀ off', Commit off' ∉ trace r)
  ∧ committed (final r) = committed w0
  ∧ precedes (Work "r1") (LockRelease (device_lock "r1")) (trace r)
  ∧ (release_fault (work_raises e) = None →
       (device_lock "r1" ∉ locks_held (final r))
       ∧ outcome r = Raise e).
Proof.
  apply (work_failure_handling (work_raises (OtherError "ssh timeout")) 7
           (Payload "42" "r1") w0 (OtherError "ssh timeout")).
  - vm_compute. elem_true.
  - reflexivity.
Defined.

(** C6. A job whose work raises a [RuntimeError]: the loop body does not
    raise. The exception ends in the clause written for a busy lock, the
    only error reported is that the device is locked, and the loop pauses
    and goes on. *)
Theorem work_runtime_error_reported_as_lock_denial :
  let e := RuntimeError "ssh timeout" in
  let r := run_job (work_raises e) 7 (Payload "42" "r1") w0 in
  work_fault (work_raises e) = Some e
  ∧ outcome r = Ret ()
  ∧ calls (trace r)
    = [EtcdGet "/jobs/42/status"; LockAcquire "/locks/device/r1"; Work "r1";
       LockRelease "/locks/device/r1"; Sleep 5]
  ∧ (∀ text, Log ERROR text ∈ trace r ↔
             text = "process_jobs|Device r1 is locked. Retrying later.")
  ∧ committed (final r) = []
  ∧ etcd_kv (final r) = ∅.
Proof.
  cbv zeta. split_and!; try (vm_compute; reflexivity).
  intros text. split.
  - intros H. vm_compute in H. elem_cases H. injection H as ->. reflexivity.
  - intros ->. vm_compute. elem_true.
Qed.

(** C7, as the program has it. When the read of the status key raises, the
    exception leaves the loop body at once: the read is the only call, the
    world is untouched, and [process_jobs] stops the consumer and raises. *)
Theorem ledger_read_failure_propagates (o : oracle) (off : Z) (p : payload)
    (w : world) (e : exn) :
  let r := run_job o off p w in
  let key := job_status_key_of (job_id p) in
  get_fault o = Some e →
  outcome r = Raise e
  ∧ final r = w
  ∧ calls (trace r) = [EtcdGet key]
  ∧ ∀ rest,
      let all := process_jobs ((o, Message off (Some p)) :: rest) w in
      outcome all = Raise e
      ∧ calls (trace all) = [ConsumerStart; EtcdGet key; ConsumerStop].
Proof.
  intros r key Hg.
  assert (Hmain : outcome r = Raise e ∧ final r = w ∧ calls (trace r) = [EtcdGet key]).
  { revert Hg. subst r key. run o; intros Hg; try discriminate Hg;
      injection Hg as <-; split_and!; reflexivity. }
  destruct Hmain as (Hout & Hfin & Hcalls).
  split_and!; [exact Hout | exact Hfin | exact Hcalls |].
  intros rest all. subst all.
  unfold process_jobs, try_finally, emit, mbind, M_bind. cbv beta.
  unfold run_job in r. rewrite (consume_raise _ _ _ _ _ Hout). fold r.
  destruct r as [[r1 w1] t1]. unfold outcome, trace in *. simpl in *. subst r1.
  simpl. split; [reflexivity|].
  rewrite calls_app, Hcalls. reflexivity.
Qed.

Lemma ledger_read_failure_propagates_witness :
  let r := run_job etcd_down 7 (Payload "42" "r1") w0 in
  get_fault etcd_down = Some (OtherError "etcd unavailable")
  ∧ outcome r = Raise (OtherError "etcd unavailable")
  ∧ calls (trace r) = [EtcdGet (job_status_key_of "42")].
Proof.
  destruct (ledger_read_failure_propagates etcd_down 7 (Payload "42" "r1") w0
              (OtherError "etcd unavailable") eq_refl) as (Hout & _ & Hcalls & _).
  cbv zeta. split_and!; [reflexivity | exact Hout | exact Hcalls].
Defined.

(** C7 as stated fails: with the read raising, no lock acquisition is
    attempted and the failure leaves the loop body. *)
Lemma ledger_read_failure_counterexample :
  let r := run_job etcd_down 7 (Payload "42" "r1") w0 in
  get_fault etcd_down = Some (OtherError "etcd unavailable")
  ∧ (∀ n, LockAcquire n ∉ trace r)
  ∧ outcome r = Raise (OtherError "etcd unavailable").
Proof.
  cbv zeta. split_and!.
  - reflexivity.
  - intros n. vm_compute. not_elem.
  - reflexivity.
Qed.
(** What holds whenever the write of the marker raises: no commit in this
    iteration, nothing acknowledged, the ledger unchanged, and neither the
    line that reports the job as finished nor the one that reports the
    commit is logged. When the release returns, the exception of the write
    leaves the loop body unless it is a [RuntimeError]. *)
Lemma failed_marker_write_prevents_ack (o : oracle) (off : Z) (p : payload)
    (w : world) (e : exn) :
  let r := run_job o off p w in
  let key := job_status_key_of (job_id p) in
  EtcdPut key "COMPLETED" ∈ trace r → put_fault o = Some e →
  (∀ off', Commit off' ∉ trace r)
  ∧ committed (final r) = committed w
  ∧ etcd_kv (final r) = etcd_kv w
  ∧ (Log INFO ("process_jobs|Job " +:+ job_id p +:+ " finished.") ∉ trace r)
  ∧ (∀ text, Log INFO ("process_jobs|msg " +:+ text +:+ " committed.") ∉ trace r)
  ∧ (release_fault o = None →
       outcome r = if is_RuntimeError e then Ret () else Raise e).
Proof.
  run o; intros HP Hp; try discriminate Hp; try solve [elem_false HP].
  all: simplify_eq.
  all: split_and!;
    [intros off'; not_elem | reflexivity | reflexivity | not_elem
    | intros text; not_elem | intros Hr; try discriminate Hr; reflexivity].
Qed.

(** C8. A job whose work succeeds and whose write of the marker raises a
    [RuntimeError]: nothing is acknowledged, but the failure of the write
    does not surface. The loop body returns normally, the only error
    reported is that the device is locked, and the loop pauses and goes on. *)
Theorem marker_write_runtime_error_reported_as_lock_denial :
  let e := RuntimeError "cannot schedule new futures after shutdown" in
  let r := run_job (put_raises e) 7 (Payload "42" "r1") w0 in
  work_fault (put_raises e) = None
  ∧ put_fault (put_raises e) = Some e
  ∧ outcome r = Ret ()
  ∧ calls (trace r)
    = [EtcdGet "/jobs/42/status"; LockAcquire "/locks/device/r1"; Work "r1";
       EtcdPut "/jobs/42/status" "COMPLETED"; LockRelease "/locks/device/r1";
       Sleep 5]
  ∧ (∀ text, Log ERROR text ∈ trace r ↔
             text = "process_jobs|Device r1 is locked. Retrying later.")
  ∧ committed (final r) = []
  ∧ etcd_kv (final r) !! "/jobs/42/status" = None.
Proof.
  cbv zeta. split_and!; try (vm_compute; reflexivity).
  intros text. split.
  - intros H. vm_compute in H. elem_cases H. injection H as ->. reflexivity.
  - intros ->. vm_compute. elem_true.
Qed.

(** C9. With the lock taken, a [RuntimeError] of the work or of the write of
    the marker, and a release that returns: the loop body ends in its
    [except RuntimeError] clause. The last events of the iteration are the
    release, its log line, the error line that reports the device as locked
    and the pause of 5 seconds; nothing is committed and the loop goes on to
    the next message. *)
Theorem runtime_error_in_critical_section_is_absorbed (o : oracle) (off : Z)
    (p : payload) (w : world) (msg : string) :
  let r := run_job o off p w in
  let name := device_lock (device p) in
  LockAcquire name ∈ trace r → acquire_result o = Ret true →
  work_fault o = Some (RuntimeError msg)
  ∨ (work_fault o = None ∧ put_fault o = Some (RuntimeError msg)) →
  release_fault o = None →
  outcome r = Ret ()
  ∧ (∀ off', Commit off' ∉ trace r)
  ∧ committed (final r) = committed w
  ∧ (name ∉ locks_held (final r))
  ∧ [LockRelease name;
     Log INFO ("AsyncNetworkDeviceLock|lock released for " +:+ name);
     Log ERROR ("process_jobs|Device " +:+ device p +:+ " is locked. Retrying later.");
     Sleep 5] `suffix_of` trace r
  ∧ ∀ rest,
      trace (consume ((o, Message off (Some p)) :: rest) w)
      = trace r ++ trace (consume rest (final r)).
Proof.
  intros r name HL Ha Hd Hr.
  assert (Hmain :
    outcome r = Ret ()
    ∧ (∀ off', Commit off' ∉ trace r)
    ∧ committed (final r) = committed w
    ∧ (name ∉ locks_held (final r))
    ∧ [LockRelease name;
       Log INFO ("AsyncNetworkDeviceLock|lock released for " +:+ name);
       Log ERROR ("process_jobs|Device " +:+ device p +:+ " is locked. Retrying later.");
       Sleep 5] `suffix_of` trace r).
  { revert HL Ha Hd Hr. subst r name.
    run o; intros HL Ha Hd Hr; try discriminate Ha; try discriminate Hr;
      try solve [elem_false HL];
      destruct Hd as [Hw | [Hw Hp]]; try discriminate.
    all: split_and!;
      [reflexivity | intros off'; not_elem | reflexivity
      | rewrite not_elem_of_difference; right; apply elem_of_singleton; reflexivity
      | repeat first [reflexivity | apply suffix_cons_r]]. }
  destruct Hmain as (Hout & Hnc & Hcom & Hheld & Hsuf).
  split_and!; try assumption.
  intros rest. subst r. unfold run_job in *.
  rewrite (consume_next _ _ _ _ Hout). reflexivity.
Qed.

Lemma runtime_error_in_critical_section_is_absorbed_witness :
  let o := put_raises (RuntimeError "cannot schedule new futures after shutdown") in
  let r := run_job o 7 (Payload "42" "r1") w0 in
  LockAcquire (device_lock "r1") ∈ trace r
  ∧ outcome r = Ret ()
  ∧ (∀ off', Commit off' ∉ trace r)
  ∧ last (trace r) = Some (Sleep 5).
Proof.
  assert (HL : LockAcquire (device_lock "r1")
               ∈ trace (run_job (put_raises (RuntimeError
                   "cannot schedule new futures after shutdown")) 7
                   (Payload "42" "r1") w0))
    by (vm_compute; elem_true).
  destruct (runtime_error_in_critical_section_is_absorbed
              (put_raises (RuntimeError "cannot schedule new futures after shutdown"))
              7 (Payload "42" "r1") w0 "cannot schedule new futures after shutdown"
              HL eq_refl (or_intror (conj eq_refl eq_refl)) eq_refl)
    as (Hout & Hnc & _).
  cbv zeta. split_and!; [exact HL | exact Hout | exact Hnc | reflexivity].
Defined.

(** C10. With the read of the status key returning: the job is skipped
    exactly when the stored value is [COMPLETED]. For any other value, and
    for a key that is not there, the next call is the lock acquisition; when
    the lock is taken and the work succeeds the program writes [COMPLETED]
    under the key, which replaces whatever was there when the write goes
    through. *)
Theorem dedup_skips_only_on_exact_COMPLETED (o : oracle) (off : Z) (p : payload)
    (w : world) :
  let r := run_job o off p w in
  let key := job_status_key_of (job_id p) in
  let name := device_lock (device p) in
  get_fault o = None →
  (etcd_kv w !! key = Some "COMPLETED" →
     calls (trace r) = [EtcdGet key; Commit off])
  ∧ (etcd_kv w !! key ≠ Some "COMPLETED" →
       (∃ rest, calls (trace r) = EtcdGet key :: LockAcquire name :: rest)
       ∧ (acquire_result o = Ret true → work_fault o = None →
            EtcdPut key "COMPLETED" ∈ trace r
            ∧ (put_fault o = None →
                 etcd_kv (final r) = <[key:="COMPLETED"]> (etcd_kv w)
                 ∧ etcd_kv (final r) !! key = Some "COMPLETED"))).
Proof.
  run o; intros Hg; try discriminate Hg.
  all: split; [intros Hkv'; first [congruence | reflexivity]|].
  all: intros Hkv'; first [congruence | idtac].
  all: split; [eexists; reflexivity|].
  all: intros Ha Hw; try discriminate Ha; try discriminate Hw.
  all: split; [elem_true|].
  all: intros Hp; try discriminate Hp.
  all: split; [reflexivity | apply lookup_insert_eq].
Qed.

Lemma dedup_skips_only_on_exact_COMPLETED_witness :
  let r := run_job all_fine 7 (Payload "42" "r1") w_pending in
  let key := job_status_key_of "42" in
  etcd_kv w_pending !! key = Some "PENDING"
  ∧ LockAcquire (device_lock "r1") ∈ trace r
  ∧ etcd_kv (final r) !! key = Some "COMPLETED".
Proof.
  assert (Hkv : etcd_kv w_pending !! job_status_key_of "42" ≠ Some "COMPLETED")
    by (vm_compute; discriminate).
  destruct (dedup_skips_only_on_exact_COMPLETED all_fine 7 (Payload "42" "r1")
              w_pending eq_refl) as (_ & Hother).
  destruct (Hother Hkv) as (_ & Hput).
  destruct (Hput eq_refl eq_refl) as (_ & Hfin).
  destruct (Hfin eq_refl) as (_ & Hkey).
  cbv zeta. split_and!; [vm_compute; reflexivity | vm_compute; elem_true | exact Hkey].
Defined.

(** * Beyond one iteration: what the worker keeps true *)

(** ** Sets of lock names, strings *)

Lemma held_after_release (n : string) (X : gset string) :
  ({[n]} ∪ X) ∖ {[n]} ⊆ X.
Proof.
  intros x Hx. apply elem_of_difference in Hx as [Hx Hn].
  apply elem_of_union in Hx as [Hx|Hx]; [contradiction | exact Hx].
Qed.

Lemma held_difference (n : string) (X : gset string) : X ∖ {[n]} ⊆ X.
Proof. intros x Hx. apply elem_of_difference in Hx as [Hx _]. exact Hx. Qed.

Ltac held_subseteq :=
  first [ reflexivity
        | apply union_subseteq_r
        | apply held_after_release
        | apply held_difference
        | etrans; [apply held_after_release | apply union_subseteq_r] ].

Lemma string_length_app (s t : string) :
  String.length (s +:+ t) = (String.length s + String.length t)%nat.
Proof. induction s as [|a s IH]; simpl; [reflexivity | rewrite IH; reflexivity]. Qed.

Lemma string_app_inj_r (t s1 s2 : string) : s1 +:+ t = s2 +:+ t → s1 = s2.
Proof.
  revert s2. induction s1 as [|a s1 IH]; intros [|b s2] H.
  - reflexivity.
  - apply (f_equal String.length) in H.
    rewrite !string_length_app in H. simpl in H. lia.
  - apply (f_equal String.length) in H.
    rewrite !string_length_app in H. simpl in H. lia.
  - simpl in H. injection H as -> H. f_equal. apply IH. exact H.
Qed.

(** ** One iteration, for any message *)

(** What one run of the loop body on a well-formed message can do to the
    world, whatever the outside answers. *)
Lemma run_job_footprint (o : oracle) (off : Z) (p : payload) (w : world) :
  let r := run_job o off p w in
  let key := job_status_key_of (job_id p) in
  let name := device_lock (device p) in
  (etcd_kv (final r) = etcd_kv w
   ∨ etcd_kv (final r) = <[key:="COMPLETED"]> (etcd_kv w))
  ∧ (committed (final r) = committed w
     ∨ committed (final r) = committed w ++ [off])
  ∧ (locks_held (final r) ⊆ {[name]} ∪ locks_held w)
  ∧ (release_fault o = None → locks_held (final r) ⊆ locks_held w)
  ∧ (ConsumerStart ∉ trace r)
  ∧ (ConsumerStop ∉ trace r).
Proof.
  run o.
  all: split_and!;
    [ first [left; reflexivity | right; reflexivity]
    | first [left; reflexivity | right; reflexivity]
    | held_subseteq
    | intros Hr; try discriminate Hr; held_subseteq
    | not_elem | not_elem ].
Qed.

(** The same for whatever the consumer yields: a value that does not parse
    raises before any call is made. *)
Lemma loop_body_footprint (o : oracle) (m : message) (w : world) :
  let r := loop_body o m w in
  (etcd_kv (final r) = etcd_kv w
   ∨ ∃ p, msg_value m = Some p
          ∧ etcd_kv (final r)
            = <[job_status_key_of (job_id p):="COMPLETED"]> (etcd_kv w))
  ∧ (committed (final r) = committed w
     ∨ committed (final r) = committed w ++ [msg_offset m])
  ∧ (release_fault o = None → locks_held (final r) ⊆ locks_held w)
  ∧ (ConsumerStart ∉ trace r)
  ∧ (ConsumerStop ∉ trace r).
Proof.
  destruct m as [off [p|]].
  - destruct (run_job_footprint o off p w) as (Hkv & Hc & _ & Hl & Hs & Hp).
    cbv zeta. unfold run_job in *. simpl msg_value. simpl msg_offset.
    split_and!; try assumption.
    destruct Hkv as [Hkv|Hkv]; [left; exact Hkv | right; eauto].
  - cbv zeta. unfold loop_body, json_loads, raise, mbind, M_bind. simpl.
    unfold final, trace. simpl.
    split_and!; [left; reflexivity | left; reflexivity | reflexivity
                | apply not_elem_of_nil | apply not_elem_of_nil].
Qed.

(** ** The loop *)

(** The loop splits into its first iteration and the rest. *)
Lemma consume_cons_cases (o : oracle) (m : message)
    (rest : list (oracle * message)) (w : world) :
  let r := loop_body o m w in
  (outcome r = Ret ()
   ∧ consume ((o, m) :: rest) w
     = (outcome (consume rest (final r)), final (consume rest (final r)),
        trace r ++ trace (consume rest (final r))))
  ∨ (∃ e, outcome r = Raise e ∧ consume ((o, m) :: rest) w = r).
Proof.
  cbv zeta. destruct (outcome (loop_body o m w)) as [[]|e] eqn:Hout.
  - left. split; [reflexivity|]. apply consume_next. exact Hout.
  - right. exists e. split; [reflexivity|]. apply (consume_raise _ _ _ _ e). exact Hout.
Qed.

(** A relation between the world before and after that every iteration
    keeps, and that is reflexive and transitive, holds across the loop. *)
Lemma consume_final_ind (Q : oracle → message → Prop) (P : world → world → Prop) :
  (∀ w, P w w) →
  (∀ w1 w2 w3, P w1 w2 → P w2 w3 → P w1 w3) →
  (∀ o m w, Q o m → P w (final (loop_body o m w))) →
  ∀ ds w, Forall (λ d, Q d.1 d.2) ds → P w (final (consume ds w)).
Proof.
  intros Hrefl Htrans Hstep ds. induction ds as [|[o m] rest IH]; intros w Hds.
  - apply Hrefl.
  - apply Forall_cons in Hds as [Hq Hrest]. simpl in Hq.
    destruct (consume_cons_cases o m rest w) as [[_ ->]|(e & _ & ->)].
    + unfold final at 1. simpl. eapply Htrans; [apply Hstep; exact Hq|].
      apply IH. exact Hrest.
    + apply Hstep. exact Hq.
Qed.

(** [process_jobs] is the loop between the start and the stop of the
    consumer; the [finally] clause neither changes the outcome nor the
    world. *)
Lemma process_jobs_consume (ds : list (oracle * message)) (w : world) :
  process_jobs ds w
  = (outcome (consume ds w), final (consume ds w),
     ConsumerStart :: trace (consume ds w) ++ [ConsumerStop]).
Proof.
  unfold process_jobs, try_finally, emit, mbind, M_bind.
  destruct (consume ds w) as [[r w1] t1]. reflexivity.
Qed.

Lemma Forall_True_deliveries (ds : list (oracle * message)) :
  Forall (λ d, (λ _ _, True) d.1 d.2) ds.
Proof. apply Forall_forall. intros; exact I. Qed.

(** The ledger across the loop: completed stays completed, nothing is
    removed, nothing but [COMPLETED] is stored. *)
Lemma consume_ledger (ds : list (oracle * message)) (w : world) :
  let w' := final (consume ds w) in
  (∀ k, etcd_kv w !! k = Some "COMPLETED" → etcd_kv w' !! k = Some "COMPLETED")
  ∧ (∀ k, is_Some (etcd_kv w !! k) → is_Some (etcd_kv w' !! k))
  ∧ (∀ k v, etcd_kv w' !! k = Some v → v = "COMPLETED" ∨ etcd_kv w !! k = Some v).
Proof.
  cbv zeta.
  pose (P := λ w1 w2 : world,
    (∀ k, etcd_kv w1 !! k = Some "COMPLETED" → etcd_kv w2 !! k = Some "COMPLETED")
    ∧ (∀ k, is_Some (etcd_kv w1 !! k) → is_Some (etcd_kv w2 !! k))
    ∧ (∀ k v, etcd_kv w2 !! k = Some v → v = "COMPLETED" ∨ etcd_kv w1 !! k = Some v)).
  apply (consume_final_ind (λ _ _, True) P); [| | |apply Forall_True_deliveries].
  - intros w1. unfold P. split_and!; auto.
  - intros w1 w2 w3 (H1 & H2 & H3) (H1' & H2' & H3'). unfold P. split_and!; auto.
    intros k v Hv. destruct (H3' k v Hv) as [->|Hv2]; [left; reflexivity|].
    apply H3. exact Hv2.
  - intros o m w1 _. unfold P.
    destruct (loop_body_footprint o m w1) as ([Hkv|(p & _ & Hkv)] & _); rewrite Hkv.
    + split_and!; auto.
    + split_and!.
      * intros k Hk. destruct (decide (job_status_key_of (job_id p) = k)) as [<-|Hne].
        -- apply lookup_insert_eq.
        -- rewrite lookup_insert_ne by exact Hne. exact Hk.
      * intros k Hk. destruct (decide (job_status_key_of (job_id p) = k)) as [<-|Hne].
        -- rewrite lookup_insert_eq. eauto.
        -- rewrite lookup_insert_ne by exact Hne. exact Hk.
      * intros k v. destruct (decide (job_status_key_of (job_id p) = k)) as [<-|Hne].
        -- rewrite lookup_insert_eq. intros [= <-]. left. reflexivity.
        -- rewrite lookup_insert_ne by exact Hne. auto.
Qed.

(** An iteration that acknowledges leaves the job recorded as completed. *)
Lemma loop_body_ack_record (o : oracle) (m : message) (w : world) :
  let r := loop_body o m w in
  committed (final r) ≠ committed w →
  ∃ p, msg_value m = Some p
       ∧ etcd_kv (final r) !! job_status_key_of (job_id p) = Some "COMPLETED".
Proof.
  destruct m as [off [p|]]; cbv zeta.
  - intros Hc. exists p. split; [reflexivity|]. revert Hc.
    change (loop_body o (Message off (Some p)) w) with (run_job o off p w).
    run o; intros Hc; try (destruct Hc; reflexivity).
    all: first [apply lookup_insert_eq | rewrite Hkv; assumption].
  - intros Hc. destruct Hc. reflexivity.
Qed.


(** What the loop acknowledges is appended to what was acknowledged. *)
Lemma acks_in_consume (ds : list (oracle * message)) (w : world) :
  ∃ acked, committed (final (consume ds w)) = committed w ++ acked.
Proof.
  apply (consume_final_ind (λ _ _, True)
           (λ w1 w2, ∃ acked, committed w2 = committed w1 ++ acked));
    [| | |apply Forall_True_deliveries].
  - intros w1. exists []. symmetry. apply app_nil_r.
  - intros w1 w2 w3 (a1 & H1) (a2 & H2). exists (a1 ++ a2).
    rewrite H2, H1, app_assoc. reflexivity.
  - intros o m w1 _. destruct (loop_body_footprint o m w1) as (_ & [Hc|Hc] & _).
    + exists []. rewrite Hc. symmetry. apply app_nil_r.
    + eexists. exact Hc.
Qed.

Lemma loop_body_malformed (o : oracle) (off : Z) (w : world) :
  loop_body o (Message off None) w = (Raise (OtherError "payload"), w, []).
Proof. reflexivity. Qed.

(** The loop itself never starts or stops the consumer. *)
Lemma consume_trace_no_start_stop (ds : list (oracle * message)) (w : world) :
  (ConsumerStart ∉ trace (consume ds w)) ∧ (ConsumerStop ∉ trace (consume ds w)).
Proof.
  revert w. induction ds as [|[o m] rest IH]; intros w.
  - split; apply not_elem_of_nil.
  - destruct (consume_cons_cases o m rest w) as [[_ ->]|(e & _ & ->)];
      destruct (loop_body_footprint o m w) as (_ & _ & _ & Hs & Hp).
    + unfold trace at 1 3. simpl. rewrite !not_elem_of_app.
      destruct (IH (final (loop_body o m w))) as [IHs IHp]. auto.
    + auto.
Qed.

(** Different job ids give different status keys. *)
Lemma job_status_key_inj (j1 j2 : string) :
  job_status_key_of j1 = job_status_key_of j2 → j1 = j2.
Proof.
  intros H. unfold job_status_key_of in H.
  apply (inj (String.app "/jobs/")) in H.
  apply string_app_inj_r in H. exact H.
Qed.

(** ** The worker as a whole *)

(** X1. Across a whole run of [process_jobs], whatever is delivered and
    whatever fails: a status key that holds [COMPLETED] keeps it, no status
    key is removed, and the value under a status key only ever changes to
    [COMPLETED]. Status keys are never lock names, so neither the taking nor
    the release of a lock touches them. *)
Theorem completion_records_are_permanent (ds : list (oracle * message)) (w : world) :
  let w' := final (process_jobs ds w) in
  (∀ j, etcd_kv w !! job_status_key_of j = Some "COMPLETED" →
        etcd_kv w' !! job_status_key_of j = Some "COMPLETED")
  ∧ (∀ j, is_Some (etcd_kv w !! job_status_key_of j) →
          is_Some (etcd_kv w' !! job_status_key_of j))
  ∧ (∀ j v, etcd_kv w' !! job_status_key_of j = Some v →
            v = "COMPLETED" ∨ etcd_kv w !! job_status_key_of j = Some v)
  ∧ (∀ j d, job_status_key_of j ≠ device_lock d).
Proof.
  cbv zeta. rewrite process_jobs_consume.
  change (final (outcome (consume ds w), final (consume ds w),
                 ConsumerStart :: trace (consume ds w) ++ [ConsumerStop]))
    with (final (consume ds w)).
  destruct (consume_ledger ds w) as (H1 & H2 & H3).
  split_and!.
  - intros j. apply H1.
  - intros j. apply H2.
  - intros j v. apply H3.
  - intros j d H. unfold job_status_key_of, device_lock in H. simpl in H.
    discriminate H.
Qed.

Lemma completion_records_are_permanent_witness :
  etcd_kv (final (process_jobs [(lock_busy, job42); (etcd_down, job42)] w_done))
    !! job_status_key_of "42" = Some "COMPLETED".
Proof.
  apply (proj1 (completion_records_are_permanent
                  [(lock_busy, job42); (etcd_down, job42)] w_done) "42").
  vm_compute. reflexivity.
Defined.

(** X2. The offsets [process_jobs] acknowledges are appended to those
    acknowledged before, each delivered message at most once and in the
    order of delivery. *)
Theorem acks_follow_delivery_order (ds : list (oracle * message)) (w : world) :
  ∃ acked,
    committed (final (process_jobs ds w)) = committed w ++ acked
    ∧ acked `sublist_of` map (λ d, msg_offset d.2) ds.
Proof.
  rewrite process_jobs_consume. unfold final at 1. simpl.
  revert w. induction ds as [|[o m] rest IH]; intros w.
  - exists []. split; [symmetry; apply app_nil_r | constructor].
  - destruct (consume_cons_cases o m rest w) as [[_ ->]|(e & _ & ->)].
    + unfold final at 1. simpl.
      destruct (IH (final (loop_body o m w))) as (acked & -> & Hsub).
      destruct (loop_body_footprint o m w) as (_ & [Hc|Hc] & _); rewrite Hc.
      * exists acked. split; [reflexivity|]. simpl. apply sublist_cons. exact Hsub.
      * exists (msg_offset m :: acked). split.
        -- rewrite <- app_assoc. reflexivity.
        -- simpl. apply sublist_skip. exact Hsub.
    + destruct (loop_body_footprint o m w) as (_ & [Hc|Hc] & _); rewrite Hc.
      * exists []. split; [symmetry; apply app_nil_r | apply sublist_nil_l].
      * exists [msg_offset m]. split; [reflexivity|].
        simpl. apply sublist_skip. apply sublist_nil_l.
Qed.

(** X3. When every release the worker calls returns, the worker holds no
    lease at the end of [process_jobs] that it did not hold at the start. *)
Theorem leases_do_not_accumulate (ds : list (oracle * message)) (w : world) :
  Forall (λ d, release_fault d.1 = None) ds →
  locks_held (final (process_jobs ds w)) ⊆ locks_held w.
Proof.
  intros Hds. rewrite process_jobs_consume. unfold final at 1. simpl.
  apply (consume_final_ind (λ o _, release_fault o = None)
           (λ w1 w2, locks_held w2 ⊆ locks_held w1)); [| | |exact Hds].
  - reflexivity.
  - intros w1 w2 w3 H12 H23. etrans; [exact H23 | exact H12].
  - intros o m w1 Hr.
    destruct (loop_body_footprint o m w1) as (_ & _ & Hl & _). apply Hl. exact Hr.
Qed.

Lemma leases_do_not_accumulate_witness :
  locks_held (final (process_jobs [(all_fine, job42); (work_raises (OtherError "x"), job42)] w0))
  ⊆ locks_held w0.
Proof.
  apply (leases_do_not_accumulate
           [(all_fine, job42); (work_raises (OtherError "x"), job42)] w0).
  repeat constructor.
Defined.

(** X5. The consumer around the loop. When [consumer.start()] raises, the
    exception leaves [process_jobs] at once: no message is processed and
    [consumer.stop()] is not called, the start being outside the [try]. When
    it returns, the stop is called exactly once, after the loop, whether the
    loop ended, raised, or the fetch failed; the loop itself never starts or
    stops the consumer; an exception of the stop replaces the outcome of the
    loop, which is passed on otherwise. *)
Theorem consumer_stopped_iff_started (s : session)
    (ds : list (oracle * message)) (w : world) :
  let r := process_jobs_session s ds w in
  let loop := consume ds w in
  (∀ e, start_fault s = Some e → r = (Raise e, w, [ConsumerStart]))
  ∧ (start_fault s = None →
       trace r = ConsumerStart :: trace loop ++ [ConsumerStop]
       ∧ (ConsumerStart ∉ trace loop) ∧ (ConsumerStop ∉ trace loop)
       ∧ final r = final loop
       ∧ outcome r
         = match stop_fault s with
           | Some e => Raise e
           | None =>
               match outcome loop, fetch_fault s with
               | Raise e, _ => Raise e
               | Ret _, Some e => Raise e
               | Ret _, None => Ret ()
               end
           end)
  ∧ process_jobs ds w = process_jobs_session (Session None None None) ds w.
Proof.
  cbv zeta. destruct s as [st fe sp].
  destruct (consume_trace_no_start_stop ds w) as [Hs Hp].
  unfold process_jobs_session, process_jobs, consumer_start, consumer_stop,
    consumer_fetch_end, try_finally, emit, raise, mbind, M_bind, mret, M_ret.
  unfold outcome, final, trace in *. simpl.
  split_and!.
  - intros e ->. reflexivity.
  - intros ->. simpl. destruct (consume ds w) as [[rc wc] tc]. simpl in *.
    destruct rc as [[]|e], fe, sp; simpl; rewrite ?app_nil_r;
      split_and!; auto.
  - destruct (consume ds w) as [[rc wc] tc].
    destruct rc as [[]|e]; simpl; rewrite ?app_nil_r; reflexivity.
Qed.

Lemma consumer_stopped_iff_started_witness :
  process_jobs_session (Session (Some (OtherError "no broker")) None None)
    [(all_fine, job42)] w0
  = (Raise (OtherError "no broker"), w0, [ConsumerStart]).
Proof.
  apply (consumer_stopped_iff_started
           (Session (Some (OtherError "no broker")) None None) [(all_fine, job42)] w0).
  reflexivity.
Defined.

(** X6. Every position [process_jobs] commits is the offset of a delivered
    message that parsed and whose job is recorded as [COMPLETED] when
    [process_jobs] ends: a commit is only ever made while a completed job is
    being processed. (The commit moves the cursor, so it also covers what
    was consumed before; X16 shows what that means for a deferred
    message.) *)
Theorem commits_are_made_at_completed_jobs (ds : list (oracle * message)) (w : world)
    (acked : list Z) (off : Z) :
  committed (final (process_jobs ds w)) = committed w ++ acked →
  off ∈ acked →
  ∃ o p, (o, Message off (Some p)) ∈ ds
         ∧ etcd_kv (final (process_jobs ds w)) !! job_status_key_of (job_id p)
           = Some "COMPLETED".
Proof.
  rewrite process_jobs_consume.
  change (final (outcome (consume ds w), final (consume ds w),
                 ConsumerStart :: trace (consume ds w) ++ [ConsumerStop]))
    with (final (consume ds w)).
  revert w acked. induction ds as [|[o m] rest IH]; intros w acked Hc Hoff.
  - simpl in Hc. unfold final in Hc. simpl in Hc.
    rewrite <- (app_nil_r (committed w)) in Hc at 1.
    apply app_inv_head in Hc. subst acked. apply elem_of_nil in Hoff. destruct Hoff.
  - destruct (loop_body_footprint o m w) as (_ & Hcm & _).
    pose proof (loop_body_ack_record o m w) as Hrec. cbv zeta in Hrec.
    destruct (consume_cons_cases o m rest w) as [[_ Heq]|(e & _ & Heq)];
      rewrite Heq in *; clear Heq.
    + change (final (outcome (consume rest (final (loop_body o m w))),
                     final (consume rest (final (loop_body o m w))),
                     trace (loop_body o m w)
                       ++ trace (consume rest (final (loop_body o m w)))))
        with (final (consume rest (final (loop_body o m w)))) in *.
      destruct (consume_ledger rest (final (loop_body o m w))) as (Hmono & _).
      destruct Hcm as [Hcm|Hcm].
      * rewrite <- Hcm in Hc.
        destruct (IH _ _ Hc Hoff) as (o' & p & Hin & Hk).
        exists o', p. split; [apply list_elem_of_further; exact Hin | exact Hk].
      * assert (Hne : committed (final (loop_body o m w)) ≠ committed w).
        { rewrite Hcm. intros Heq. apply (f_equal length) in Heq.
          rewrite length_app in Heq. simpl in Heq. lia. }
        destruct (Hrec Hne) as (p & Hp & Hk).
        destruct (acks_in_consume rest (final (loop_body o m w))) as (acked' & Hc').
        rewrite Hc', Hcm, <- app_assoc in Hc. apply app_inv_head in Hc.
        subst acked. simpl in Hoff. apply elem_of_cons in Hoff as [->|Hoff].
        -- exists o, p. split.
           ++ destruct m as [off' v]. simpl in *. subst v. apply list_elem_of_here.
           ++ apply Hmono. exact Hk.
        -- destruct (IH _ _ Hc' Hoff) as (o' & p' & Hin & Hk').
           exists o', p'. split; [apply list_elem_of_further; exact Hin | exact Hk'].
    + destruct Hcm as [Hcm|Hcm].
      * rewrite Hcm in Hc. rewrite <- (app_nil_r (committed w)) in Hc at 1.
        apply app_inv_head in Hc. subst acked. apply elem_of_nil in Hoff. destruct Hoff.
      * assert (Hne : committed (final (loop_body o m w)) ≠ committed w).
        { rewrite Hcm. intros Heq. apply (f_equal length) in Heq.
          rewrite length_app in Heq. simpl in Heq. lia. }
        destruct (Hrec Hne) as (p & Hp & Hk).
        rewrite Hcm in Hc. apply app_inv_head in Hc. subst acked.
        apply elem_of_cons in Hoff as [->|Hoff];
          [|apply elem_of_nil in Hoff; destruct Hoff].
        exists o, p. split; [|exact Hk].
        destruct m as [off' v]. simpl in *. subst v. apply list_elem_of_here.
Qed.

Lemma commits_are_made_at_completed_jobs_witness :
  ∃ o p, (o, Message 7 (Some p)) ∈ [(all_fine, job42)]
         ∧ etcd_kv (final (process_jobs [(all_fine, job42)] w0))
             !! job_status_key_of (job_id p) = Some "COMPLETED".
Proof.
  apply (commits_are_made_at_completed_jobs [(all_fine, job42)] w0 [7] 7).
  - vm_compute. reflexivity.
  - apply list_elem_of_here.
Defined.

(** ** Edges of one iteration *)

(** X7. A message whose value does not parse: the exception leaves the loop
    before any call to etcd or Kafka, the message is not acknowledged, what
    was delivered after it is not processed, and the consumer is stopped. *)
Theorem malformed_message_stops_worker (o : oracle) (off : Z)
    (rest : list (oracle * message)) (w : world) :
  let r := process_jobs ((o, Message off None) :: rest) w in
  (∃ e, outcome r = Raise e)
  ∧ final r = w
  ∧ trace r = [ConsumerStart; ConsumerStop].
Proof.
  cbv zeta. rewrite process_jobs_consume.
  rewrite (consume_raise o (Message off None) rest w (OtherError "payload"))
    by reflexivity.
  rewrite loop_body_malformed. unfold outcome, final, trace. simpl.
  split_and!; [eexists; reflexivity | reflexivity | reflexivity].
Qed.

(** X8. The guard calls [release] at most once: [__aexit__] on a guard that
    is not locked (never entered, or already left) makes no call and changes
    nothing; on a locked guard, when the release returns, it makes exactly
    that call, drops the lease, and leaves a guard on which a second
    [__aexit__] does nothing. *)
Theorem guard_releases_at_most_once (o : oracle) (self : AsyncNetworkDeviceLock.t)
    (w : world) :
  let r := AsyncNetworkDeviceLock.__aexit__ o self w in
  (AsyncNetworkDeviceLock.is_locked self = false → r = (Ret self, w, []))
  ∧ (AsyncNetworkDeviceLock.is_locked self = true → release_fault o = None →
       ∃ self',
         outcome r = Ret self'
         ∧ AsyncNetworkDeviceLock.is_locked self' = false
         ∧ AsyncNetworkDeviceLock.lock_name self' = AsyncNetworkDeviceLock.lock_name self
         ∧ calls (trace r) = [LockRelease (AsyncNetworkDeviceLock.lock_name self)]
         ∧ (AsyncNetworkDeviceLock.lock_name self ∉ locks_held (final r))
         ∧ AsyncNetworkDeviceLock.__aexit__ o self' (final r)
           = (Ret self', final r, []))
  ∧ (∀ d t, AsyncNetworkDeviceLock.__aexit__ o (AsyncNetworkDeviceLock.__init__ d t) w
            = (Ret (AsyncNetworkDeviceLock.__init__ d t), w, [])).
Proof.
  cbv zeta. destruct self as [n t l]. split_and!.
  - simpl. intros ->. reflexivity.
  - simpl. intros -> Hr.
    unfold AsyncNetworkDeviceLock.__aexit__, lock_release, logger, emit,
      mbind, M_bind, mret, M_ret. simpl. rewrite Hr. simpl.
    eexists. split_and!; try reflexivity.
    unfold final. simpl. rewrite not_elem_of_difference. right.
    apply elem_of_singleton. reflexivity.
  - intros d t'. reflexivity.
Qed.

Lemma guard_releases_at_most_once_witness :
  let locked := AsyncNetworkDeviceLock.Make "/locks/device/r1" 60 true in
  let r := AsyncNetworkDeviceLock.__aexit__ all_fine locked
             (World ∅ {["/locks/device/r1"]} []) in
  ∃ self',
    outcome r = Ret self'
    ∧ calls (trace r) = [LockRelease "/locks/device/r1"]
    ∧ AsyncNetworkDeviceLock.__aexit__ all_fine self' (final r)
      = (Ret self', final r, []).
Proof.
  destruct (guard_releases_at_most_once all_fine
              (AsyncNetworkDeviceLock.Make "/locks/device/r1" 60 true)
              (World ∅ {["/locks/device/r1"]} [])) as (_ & H & _).
  destruct (H eq_refl eq_refl) as (self' & Hout & _ & _ & Hcalls & _ & Hagain).
  exists self'. split_and!; [exact Hout | exact Hcalls | exact Hagain].
Defined.

(** X9. Redelivery after the marker was written: once an iteration has
    written [COMPLETED] for a job (even if its release or its commit then
    failed), a later delivery of a message with the same job id, whose dedup
    read returns, does no work, takes no lock and goes straight to the
    commit. *)
Theorem redelivery_after_marker_is_skipped (o1 o2 : oracle) (off1 off2 : Z)
    (p p' : payload) (w : world) :
  let r1 := run_job o1 off1 p w in
  let r2 := run_job o2 off2 p' (final r1) in
  let key := job_status_key_of (job_id p) in
  job_id p' = job_id p →
  EtcdPut key "COMPLETED" ∈ trace r1 → put_fault o1 = None →
  get_fault o2 = None →
  calls (trace r2) = [EtcdGet key; Commit off2]
  ∧ etcd_kv (final r2) = etcd_kv (final r1)
  ∧ locks_held (final r2) = locks_held (final r1).
Proof.
  intros r1 r2 key Hid HP Hp Hg.
  assert (Hrec : etcd_kv (final r1) !! job_status_key_of (job_id p') = Some "COMPLETED").
  { rewrite Hid. revert HP Hp. subst r1 key. clear.
    run o1; intros HP Hp; try discriminate Hp; try solve [elem_false HP].
    all: apply lookup_insert_eq. }
  subst r2 key. rewrite <- Hid. revert Hrec Hg. generalize (final r1). clear.
  intros w1. run o2; intros Hrec Hg; try discriminate Hg; try congruence.
  all: split_and!; reflexivity.
Qed.

Lemma redelivery_after_marker_is_skipped_witness :
  let r1 := run_job (commit_raises (OtherError "broker down")) 7 (Payload "42" "r1") w0 in
  let r2 := run_job all_fine 8 (Payload "42" "r2") (final r1) in
  calls (trace r2) = [EtcdGet (job_status_key_of "42"); Commit 8]
  ∧ etcd_kv (final r2) = etcd_kv (final r1)
  ∧ locks_held (final r2) = locks_held (final r1).
Proof.
  apply (redelivery_after_marker_is_skipped (commit_raises (OtherError "broker down"))
           all_fine 7 8 (Payload "42" "r1") (Payload "42" "r2") w0).
  - reflexivity.
  - vm_compute. elem_true.
  - reflexivity.
  - reflexivity.
Defined.

(** X10. A commit that raises. For a job found completed the commit is
    outside the [try], so the exception leaves the loop body whatever its
    class. After successful work the commit is inside it: the marker is
    already written and the lock released, nothing is acknowledged, and a
    [RuntimeError] ends in the [except] clause (pause of 5 seconds, next
    message) while any other exception leaves the loop body. *)
Theorem commit_failure_handling (o : oracle) (off : Z) (p : payload) (w : world)
    (e : exn) :
  let r := run_job o off p w in
  let key := job_status_key_of (job_id p) in
  let name := device_lock (device p) in
  get_fault o = None → commit_fault o = Some e →
  committed (final r) = committed w
  ∧ (etcd_kv w !! key = Some "COMPLETED" →
       outcome r = Raise e ∧ final r = w
       ∧ calls (trace r) = [EtcdGet key; Commit off])
  ∧ (etcd_kv w !! key ≠ Some "COMPLETED" →
     acquire_result o = Ret true →
     work_fault o = None → put_fault o = None → release_fault o = None →
       outcome r = (if is_RuntimeError e then Ret () else Raise e)
       ∧ etcd_kv (final r) !! key = Some "COMPLETED"
       ∧ (name ∉ locks_held (final r))
       ∧ calls (trace r)
         = [EtcdGet key; LockAcquire name; Work (device p);
            EtcdPut key "COMPLETED"; LockRelease name; Commit off]
           ++ (if is_RuntimeError e then [Sleep 5] else [])).
Proof.
  run o; intros Hg Hc; try discriminate Hg; try discriminate Hc.
  all: simplify_eq.
  all: split_and!;
    [ reflexivity
    | intros Hkv'; first [congruence | split_and!; reflexivity]
    | intros Hkv' Ha Hw Hp Hr;
      first [congruence | discriminate
            | split_and!;
              [ reflexivity | apply lookup_insert_eq
              | rewrite not_elem_of_difference; right; apply elem_of_singleton;
                reflexivity
              | reflexivity ] ] ].
Qed.

Lemma commit_failure_handling_witness :
  let e := RuntimeError "CommitFailedError" in
  let r := run_job (commit_raises e) 7 (Payload "42" "r1") w0 in
  committed (final r) = []
  ∧ outcome r = Ret ()
  ∧ etcd_kv (final r) !! job_status_key_of "42" = Some "COMPLETED".
Proof.
  destruct (commit_failure_handling (commit_raises (RuntimeError "CommitFailedError"))
              7 (Payload "42" "r1") w0 (RuntimeError "CommitFailedError")
              eq_refl eq_refl) as (Hc & _ & Hlocked).
  assert (Hkv : etcd_kv w0 !! job_status_key_of (job_id (Payload "42" "r1"))
                ≠ Some "COMPLETED") by (vm_compute; discriminate).
  destruct (Hlocked Hkv eq_refl eq_refl eq_refl eq_refl) as (Hout & Hrec & _).
  cbv zeta. split_and!; [exact Hc | exact Hout | exact Hrec].
Defined.

(** X11. An acquisition that does not return [True]: [__aexit__] is not run,
    so no release is called, no lease is recorded, and the world is left as
    it was. When [acquire] itself raises, a [RuntimeError] is handled like a
    denial (pause of 5 seconds, next message) and any other exception leaves
    the loop body with no pause. *)
Theorem failed_acquisition_releases_nothing (o : oracle) (off : Z) (p : payload)
    (w : world) :
  let r := run_job o off p w in
  let key := job_status_key_of (job_id p) in
  let name := device_lock (device p) in
  LockAcquire name ∈ trace r → acquire_result o ≠ Ret true →
  (∀ n, LockRelease n ∉ trace r)
  ∧ final r = w
  ∧ (∀ e, acquire_result o = Raise e →
       outcome r = (if is_RuntimeError e then Ret () else Raise e)
       ∧ calls (trace r)
         = [EtcdGet key; LockAcquire name]
           ++ (if is_RuntimeError e then [Sleep 5] else [])).
Proof.
  run o; intros HL Ha; try solve [elem_false HL]; try congruence.
  all: split_and!;
    [ intros n; not_elem | reflexivity
    | intros e' He'; try discriminate He'; simplify_eq; split; reflexivity ].
Qed.

Lemma failed_acquisition_releases_nothing_witness :
  let e := OtherError "etcd unavailable" in
  let r := run_job (acquire_raises e) 7 (Payload "42" "r1") w0 in
  (∀ n, LockRelease n ∉ trace r)
  ∧ final r = w0
  ∧ outcome r = Raise e.
Proof.
  destruct (failed_acquisition_releases_nothing
              (acquire_raises (OtherError "etcd unavailable")) 7 (Payload "42" "r1") w0)
    as (Hnr & Hfin & Hraise).
  - vm_compute. elem_true.
  - discriminate.
  - cbv zeta. split_and!; [exact Hnr | exact Hfin | exact (proj1 (Hraise _ eq_refl))].
Defined.

(** X12. The work is only ever done for the device of the message, with the
    lock of that device taken before and its release called after, and never
    for a job the dedup read found completed. *)
Theorem work_only_under_lock (o : oracle) (off : Z) (p : payload) (w : world)
    (d : string) :
  let r := run_job o off p w in
  let key := job_status_key_of (job_id p) in
  let name := device_lock (device p) in
  Work d ∈ trace r →
  d = device p
  ∧ get_fault o = None
  ∧ etcd_kv w !! key ≠ Some "COMPLETED"
  ∧ acquire_result o = Ret true
  ∧ precedes (LockAcquire name) (Work d) (trace r)
  ∧ precedes (Work d) (LockRelease name) (trace r).
Proof.
  run o; intros HW; elem_cases HW.
  all: injection HW as ->.
  all: split_and!;
    [ reflexivity | reflexivity | first [discriminate | assumption] | reflexivity
    | precedes_true | precedes_true ].
Qed.

Lemma work_only_under_lock_witness :
  let r := run_job all_fine 7 (Payload "42" "r1") w0 in
  acquire_result all_fine = Ret true
  ∧ precedes (LockAcquire (device_lock "r1")) (Work "r1") (trace r)
  ∧ precedes (Work "r1") (LockRelease (device_lock "r1")) (trace r).
Proof.
  destruct (work_only_under_lock all_fine 7 (Payload "42" "r1") w0 "r1")
    as (_ & _ & _ & Ha & Hb & Hc).
  - vm_compute. elem_true.
  - cbv zeta. split_and!; [exact Ha | exact Hb | exact Hc].
Defined.

(** X13. The only write the loop body ever makes is [COMPLETED] under the
    status key of the job of the message, and it makes it only after the
    work has returned, while the lock is still held. *)
Theorem marker_only_after_successful_work (o : oracle) (off : Z) (p : payload)
    (w : world) (k v : string) :
  let r := run_job o off p w in
  let name := device_lock (device p) in
  EtcdPut k v ∈ trace r →
  k = job_status_key_of (job_id p)
  ∧ v = "COMPLETED"
  ∧ work_fault o = None
  ∧ precedes (Work (device p)) (EtcdPut k v) (trace r)
  ∧ precedes (EtcdPut k v) (LockRelease name) (trace r).
Proof.
  run o; intros HP; elem_cases HP.
  all: injection HP as -> ->.
  all: split_and!; [reflexivity | reflexivity | reflexivity | precedes_true | precedes_true].
Qed.

Lemma marker_only_after_successful_work_witness :
  let r := run_job all_fine 7 (Payload "42" "r1") w0 in
  work_fault all_fine = None
  ∧ precedes (Work "r1") (EtcdPut "/jobs/42/status" "COMPLETED") (trace r).
Proof.
  destruct (marker_only_after_successful_work all_fine 7 (Payload "42" "r1") w0
              "/jobs/42/status" "COMPLETED") as (_ & _ & Hw & Hb & _).
  - vm_compute. elem_true.
  - cbv zeta. split; [exact Hw | exact Hb].
Defined.

(** X14. Names do not collide: different job ids give different status
    keys, different devices give different lock names, and no status key is
    a lock name. The only status key an iteration can change is that of its
    own job: the record of every other job is left as it was, whatever the
    iteration does with its lock. *)
Theorem job_records_are_independent (o : oracle) (off : Z) (p : payload) (w : world) :
  let r := run_job o off p w in
  (∀ j1 j2, job_status_key_of j1 = job_status_key_of j2 → j1 = j2)
  ∧ (∀ d1 d2, device_lock d1 = device_lock d2 → d1 = d2)
  ∧ (∀ j d, job_status_key_of j ≠ device_lock d)
  ∧ (∀ j, j ≠ job_id p →
       etcd_kv (final r) !! job_status_key_of j
       = etcd_kv w !! job_status_key_of j).
Proof.
  cbv zeta. split_and!.
  - exact job_status_key_inj.
  - intros d1 d2 H. unfold device_lock in H. simpl in H.
    apply (inj (String.app "/locks/device/")) in H. exact H.
  - intros j d H. unfold job_status_key_of, device_lock in H. simpl in H.
    discriminate H.
  - intros j Hj.
    destruct (run_job_footprint o off p w) as ([Hkv|Hkv] & _); rewrite Hkv.
    + reflexivity.
    + apply lookup_insert_ne. intros H. apply Hj. symmetry.
      apply job_status_key_inj. exact H.
Qed.

Lemma job_records_are_independent_witness :
  etcd_kv (final (run_job all_fine 7 (Payload "43" "r1") w_pending))
    !! job_status_key_of "42" = Some "PENDING".
Proof.
  destruct (job_records_are_independent all_fine 7 (Payload "43" "r1") w_pending)
    as (_ & _ & _ & H).
  etrans; [apply (H "42"); discriminate | vm_compute; reflexivity].
Defined.

(** X15. A release that raises after the lock was taken: the lease stays
    with the worker (until its TTL runs out), the exception of the release
    is the one that leaves the [async with] block, and the commit is never
    reached, even when the work succeeded and the marker is written. A
    [RuntimeError] of the release ends in the [except] clause, any other
    exception leaves the loop body. *)
Theorem release_failure_prevents_ack (o : oracle) (off : Z) (p : payload)
    (w : world) (e : exn) :
  let r := run_job o off p w in
  let key := job_status_key_of (job_id p) in
  let name := device_lock (device p) in
  LockAcquire name ∈ trace r → acquire_result o = Ret true →
  release_fault o = Some e →
  (∀ off', Commit off' ∉ trace r)
  ∧ committed (final r) = committed w
  ∧ name ∈ locks_held (final r)
  ∧ outcome r = (if is_RuntimeError e then Ret () else Raise e)
  ∧ (work_fault o = None → put_fault o = None →
       etcd_kv (final r) !! key = Some "COMPLETED").
Proof.
  run o; intros HL Ha Hr; try discriminate Ha; try discriminate Hr;
    try solve [elem_false HL].
  all: simplify_eq.
  all: split_and!;
    [ intros off'; not_elem | reflexivity
    | apply elem_of_union; left; apply elem_of_singleton; reflexivity
    | reflexivity
    | intros Hw Hp; try discriminate Hw; try discriminate Hp;
      apply lookup_insert_eq ].
Qed.

Lemma release_failure_prevents_ack_witness :
  let e := OtherError "lease lost" in
  let r := run_job (release_raises e) 7 (Payload "42" "r1") w0 in
  (∀ off', Commit off' ∉ trace r)
  ∧ device_lock "r1" ∈ locks_held (final r)
  ∧ outcome r = Raise e
  ∧ etcd_kv (final r) !! job_status_key_of "42" = Some "COMPLETED".
Proof.
  destruct (release_failure_prevents_ack (release_raises (OtherError "lease lost")) 7
              (Payload "42" "r1") w0 (OtherError "lease lost"))
    as (Hnc & _ & Hheld & Hout & Hrec).
  - vm_compute. elem_true.
  - reflexivity.
  - reflexivity.
  - cbv zeta. split_and!; [exact Hnc | exact Hheld | exact Hout | exact (Hrec eq_refl eq_refl)].
Defined.

(** X16. A deferred message is not retried by the loop. When the lock of a
    first message is denied and a second message, of another job and with a
    later offset, is processed with nothing failing: the loop makes no
    second attempt at the first, the only commit it makes is at the offset
    of the second, which lies past the first, and the first job is still
    not recorded as [COMPLETED]. *)
Theorem deferred_message_is_passed_by_next_commit (o1 o2 : oracle) (off1 off2 : Z)
    (p1 p2 : payload) (w : world) :
  let k1 := job_status_key_of (job_id p1) in
  let k2 := job_status_key_of (job_id p2) in
  let r := process_jobs [(o1, Message off1 (Some p1)); (o2, Message off2 (Some p2))] w in
  job_id p1 ≠ job_id p2 → off1 < off2 →
  get_fault o1 = None → etcd_kv w !! k1 ≠ Some "COMPLETED" →
  acquire_result o1 = Ret false →
  get_fault o2 = None → etcd_kv w !! k2 ≠ Some "COMPLETED" →
  acquire_result o2 = Ret true →
  work_fault o2 = None → put_fault o2 = None → release_fault o2 = None →
  commit_fault o2 = None →
  outcome r = Ret ()
  ∧ calls (trace r)
    = [ConsumerStart;
       EtcdGet k1; LockAcquire (device_lock (device p1)); Sleep 5;
       EtcdGet k2; LockAcquire (device_lock (device p2)); Work (device p2);
       EtcdPut k2 "COMPLETED"; LockRelease (device_lock (device p2)); Commit off2;
       ConsumerStop]
  ∧ committed (final r) = committed w ++ [off2]
  ∧ etcd_kv (final r) !! k1 = etcd_kv w !! k1
  ∧ etcd_kv (final r) !! k1 ≠ Some "COMPLETED"
  ∧ (∃ c, last (committed (final r)) = Some c ∧ off1 < c).
Proof.
  intros k1 k2 r Hid Hoff Hg1 Hk1 Ha1 Hg2 Hk2 Ha2 Hw2 Hp2 Hr2 Hc2.
  assert (H1 : outcome (run_job o1 off1 p1 w) = Ret ()
               ∧ final (run_job o1 off1 p1 w) = w
               ∧ calls (trace (run_job o1 off1 p1 w))
                 = [EtcdGet k1; LockAcquire (device_lock (device p1)); Sleep 5]).
  { revert Hg1 Hk1 Ha1. subst k1. clear.
    run o1; intros Hg Hk Ha; try discriminate; try congruence.
    all: split_and!; reflexivity. }
  assert (H2 : outcome (run_job o2 off2 p2 w) = Ret ()
               ∧ committed (final (run_job o2 off2 p2 w)) = committed w ++ [off2]
               ∧ etcd_kv (final (run_job o2 off2 p2 w))
                 = <[k2:="COMPLETED"]> (etcd_kv w)
               ∧ calls (trace (run_job o2 off2 p2 w))
                 = [EtcdGet k2; LockAcquire (device_lock (device p2));
                    Work (device p2); EtcdPut k2 "COMPLETED";
                    LockRelease (device_lock (device p2)); Commit off2]).
  { revert Hg2 Hk2 Ha2 Hw2 Hp2 Hr2 Hc2. subst k2. clear.
    run o2; intros Hg Hk Ha Hw Hp Hr Hc; try discriminate; try congruence.
    all: split_and!; reflexivity. }
  destruct H1 as (Hout1 & Hfin1 & Hcalls1).
  destruct H2 as (Hout2 & Hcom2 & Hkv2 & Hcalls2).
  unfold run_job in *.
  assert (Hrun : consume [(o1, Message off1 (Some p1)); (o2, Message off2 (Some p2))] w
                 = (Ret (), final (loop_body o2 (Message off2 (Some p2)) w),
                    trace (loop_body o1 (Message off1 (Some p1)) w)
                    ++ trace (loop_body o2 (Message off2 (Some p2)) w) ++ [])).
  { rewrite (consume_next _ _ _ _ Hout1), Hfin1.
    rewrite (consume_next _ _ _ _ Hout2). reflexivity. }
  subst r. rewrite process_jobs_consume, Hrun. rewrite app_nil_r.
  set (r2 := loop_body o2 (Message off2 (Some p2)) w) in *.
  set (r1 := loop_body o1 (Message off1 (Some p1)) w) in *.
  change (outcome (Ret (), final r2, trace r1 ++ trace r2)) with (@Ret unit ()).
  change (final (Ret (), final r2, trace r1 ++ trace r2)) with (final r2).
  change (trace (Ret (), final r2, trace r1 ++ trace r2)) with (trace r1 ++ trace r2).
  change (outcome (@Ret unit (), final r2,
                   ConsumerStart :: (trace r1 ++ trace r2) ++ [ConsumerStop]))
    with (@Ret unit ()).
  change (final (@Ret unit (), final r2,
                 ConsumerStart :: (trace r1 ++ trace r2) ++ [ConsumerStop]))
    with (final r2).
  change (trace (@Ret unit (), final r2,
                 ConsumerStart :: (trace r1 ++ trace r2) ++ [ConsumerStop]))
    with (ConsumerStart :: (trace r1 ++ trace r2) ++ [ConsumerStop]).
  assert (Hk1' : etcd_kv (final r2) !! k1 = etcd_kv w !! k1).
  { rewrite Hkv2. apply lookup_insert_ne. intros H. apply Hid. symmetry.
    apply job_status_key_inj. exact H. }
  split_and!.
  - reflexivity.
  - change (ConsumerStart :: (trace r1 ++ trace r2) ++ [ConsumerStop])
      with ([ConsumerStart] ++ (trace r1 ++ trace r2) ++ [ConsumerStop]).
    rewrite !calls_app, Hcalls1, Hcalls2. reflexivity.
  - exact Hcom2.
  - exact Hk1'.
  - rewrite Hk1'. exact Hk1.
  - exists off2. split; [|exact Hoff]. rewrite Hcom2. apply last_snoc.
Qed.

Lemma deferred_message_is_passed_by_next_commit_witness :
  let r := process_jobs [(lock_busy, Message 9 (Some (Payload "43" "r1")));
                         (all_fine, Message 10 (Some (Payload "44" "r2")))] w0 in
  committed (final r) = [10]
  ∧ etcd_kv (final r) !! job_status_key_of "43" = None.
Proof.
  destruct (deferred_message_is_passed_by_next_commit lock_busy all_fine 9 10
              (Payload "43" "r1") (Payload "44" "r2") w0) as (_ & _ & Hc & Hk & _);
    try reflexivity; try discriminate; try (vm_compute; discriminate).
  cbv zeta. split; [exact Hc | exact Hk].
Defined.
